(** * object-tree: the classifier ([handlers.ts]) and the tree walker
      ([object-tree.ts]) as Rocq functions, and the properties of the
      specification checked against them.

    JavaScript strings are sequences of UTF-16 code units, JavaScript numbers
    are modelled by the integers together with [NaN] and the two infinities
    (the only numbers the code computes with are lengths, indices, limits and
    their differences), a thrown exception is an explicit outcome. *)

From Stdlib Require Import List ZArith NArith Lia Bool String Ascii.
From Stdlib Require Import Sorted Permutation.
Import ListNotations.

Set Implicit Arguments.
Set Warnings "-register-all".

(* ------------------------------------------------------------------------- *)
(** ** JavaScript strings *)
(* ------------------------------------------------------------------------- *)

(** A string is its list of UTF-16 code units; [length], [slice],
    [startsWith], [includes] and the default [sort] order all work on code
    units. *)
Definition jsstring := list N.

(** The bytes of a source literal. *)
Fixpoint utf8_bytes (s : string) : list N :=
  match s with
  | EmptyString => []
  | String a rest => N_of_ascii a :: utf8_bytes rest
  end.

(** UTF-8 to UTF-16: one, two and three byte sequences give one code unit,
    a four byte sequence gives a surrogate pair. *)
Fixpoint utf8_decode (bs : list N) : jsstring :=
  match bs with
  | [] => []
  | b0 :: r0 =>
      if (b0 <? 128)%N then b0 :: utf8_decode r0
      else if (b0 <? 224)%N then
        match r0 with
        | b1 :: r1 => ((b0 - 192) * 64 + (b1 - 128))%N :: utf8_decode r1
        | [] => []
        end
      else if (b0 <? 240)%N then
        match r0 with
        | b1 :: b2 :: r2 =>
            ((b0 - 224) * 4096 + (b1 - 128) * 64 + (b2 - 128))%N
              :: utf8_decode r2
        | _ => []
        end
      else
        match r0 with
        | b1 :: b2 :: b3 :: r3 =>
            let cp := ((b0 - 240) * 262144 + (b1 - 128) * 4096
                       + (b2 - 128) * 64 + (b3 - 128))%N in
            let v := (cp - 65536)%N in
            (55296 + v / 1024)%N :: (56320 + v mod 1024)%N :: utf8_decode r3
        | _ => []
        end
  end.

(** A string literal of the source. *)
Definition str (s : string) : jsstring := utf8_decode (utf8_bytes s).
Arguments str s%_string.

(** [a.startsWith(p)] *)
Fixpoint startsWith (p s : jsstring) : bool :=
  match p, s with
  | [], _ => true
  | _ :: _, [] => false
  | x :: p', y :: s' => (x =? y)%N && startsWith p' s'
  end.

(** [s.includes(needle)] *)
Fixpoint includes (needle s : jsstring) : bool :=
  startsWith needle s
  || match s with
     | [] => false
     | _ :: s' => includes needle s'
     end.

(** [a < b] on strings: code unit by code unit. *)
Fixpoint str_ltb (a b : jsstring) : bool :=
  match a, b with
  | _, [] => false
  | [], _ :: _ => true
  | x :: a', y :: b' =>
      if (x <? y)%N then true
      else if (y <? x)%N then false
      else str_ltb a' b'
  end.

Definition str_le (a b : jsstring) : Prop := str_ltb b a = false.

(** [keys.sort()] with the default comparator: a stable sort by [str_ltb]. *)
Fixpoint sort_insert (x : jsstring) (l : list jsstring) : list jsstring :=
  match l with
  | [] => [x]
  | y :: rest => if str_ltb y x then y :: sort_insert x rest else x :: y :: rest
  end.

Definition sort (keys : list jsstring) : list jsstring :=
  fold_right sort_insert [] keys.

(* ------------------------------------------------------------------------- *)
(** ** JavaScript numbers *)
(* ------------------------------------------------------------------------- *)

(** The numbers the code computes with: the sizes of containers, the
    limits of the options and their differences. [Int z] is the number of
    integer value [z]; a fraction is not modelled. The arithmetic below is
    exact, as the host's is on safe integers (of magnitude up to [2^53]). *)
Inductive number : Type :=
| NaN
| NegInfinity
| Int (z : Z)
| PosInfinity.

(** [a < b]; every comparison with [NaN] is false. *)
Definition num_lt (a b : number) : bool :=
  match a, b with
  | NaN, _ | _, NaN => false
  | NegInfinity, NegInfinity => false
  | NegInfinity, _ => true
  | _, NegInfinity => false
  | PosInfinity, _ => false
  | Int _, PosInfinity => true
  | Int x, Int y => (x <? y)%Z
  end.

(** [a > b] *)
Definition num_gt (a b : number) : bool := num_lt b a.

(** [a >= b] *)
Definition num_ge (a b : number) : bool :=
  match a, b with
  | NaN, _ | _, NaN => false
  | _, NegInfinity => true
  | NegInfinity, _ => false
  | PosInfinity, _ => true
  | Int _, PosInfinity => false
  | Int x, Int y => (y <=? x)%Z
  end.

(** [Math.min(a, b)] *)
Definition Math_min (a b : number) : number :=
  match a, b with
  | NaN, _ | _, NaN => NaN
  | NegInfinity, _ | _, NegInfinity => NegInfinity
  | PosInfinity, x | x, PosInfinity => x
  | Int x, Int y => Int (Z.min x y)
  end.

(** [a - b]; on integers the exact difference, which is what the host
    computes when the operands and the difference are safe integers. *)
Definition num_sub (a b : number) : number :=
  match a, b with
  | NaN, _ | _, NaN => NaN
  | Int x, Int y => Int (x - y)
  | PosInfinity, PosInfinity | NegInfinity, NegInfinity => NaN
  | PosInfinity, _ | _, NegInfinity => PosInfinity
  | NegInfinity, _ | _, PosInfinity => NegInfinity
  end.

Definition digit_unit (d : N) : N := (48 + d)%N.

Fixpoint uint_units (u : Decimal.uint) : jsstring :=
  match u with
  | Decimal.Nil => []
  | Decimal.D0 r => digit_unit 0 :: uint_units r
  | Decimal.D1 r => digit_unit 1 :: uint_units r
  | Decimal.D2 r => digit_unit 2 :: uint_units r
  | Decimal.D3 r => digit_unit 3 :: uint_units r
  | Decimal.D4 r => digit_unit 4 :: uint_units r
  | Decimal.D5 r => digit_unit 5 :: uint_units r
  | Decimal.D6 r => digit_unit 6 :: uint_units r
  | Decimal.D7 r => digit_unit 7 :: uint_units r
  | Decimal.D8 r => digit_unit 8 :: uint_units r
  | Decimal.D9 r => digit_unit 9 :: uint_units r
  end.

(** The decimal digits of an integer, with a leading minus sign when it is
    negative. *)
Definition Z_toString (z : Z) : jsstring :=
  match Z.to_int z with
  | Decimal.Pos u => uint_units u
  | Decimal.Neg u => str "-" ++ uint_units u
  end.

(** [String(n)] for a number: integers in positional notation, which the
    host uses for integers of magnitude below [10^21]. *)
Definition Number_toString (n : number) : jsstring :=
  match n with
  | NaN => str "NaN"
  | NegInfinity => str "-Infinity"
  | PosInfinity => str "Infinity"
  | Int z => Z_toString z
  end.

(** [Number.isNaN(n)] *)
Definition Number_isNaN (n : number) : bool :=
  match n with NaN => true | _ => false end.

(** [s.slice(0, end)]: a negative [end] counts from the end of the string,
    [NaN] is 0, and the result is clamped to the string. *)
Definition slice0 (s : jsstring) (e : number) : jsstring :=
  let len := Z.of_nat (List.length s) in
  let final :=
    match e with
    | NaN => 0
    | NegInfinity => 0
    | PosInfinity => len
    | Int z => if (z <? 0)%Z then Z.max (len + z) 0 else Z.min z len
    end%Z in
  firstn (Z.to_nat final) s.

(* ------------------------------------------------------------------------- *)
(** ** types.ts *)
(* ------------------------------------------------------------------------- *)

(** [Color]: chalk's foreground colour names. *)
Inductive Color : Type :=
| black | red | green | yellow | blue | magenta | cyan | white | gray | grey
| blackBright | redBright | greenBright | yellowBright | blueBright
| magentaBright | cyanBright | whiteBright.

Inductive Quotes : Type := QSingle | QDouble | QNone.
Inductive DateFormat : Type := FNone | FIso | FLocale.

(** The colour capability the code consumes: [chalk.level] and
    [chalk[color](text)]. *)
Record Chalk : Type := {
  level : Z;
  paint : Color -> jsstring -> jsstring
}.

(** [ResolvedOptions]: every section and every field present. *)
Record CharsOptions : Type := { tee : jsstring; ell : jsstring; pipe : jsstring }.

Record ColorsOptions : Type := {
  c_string : Color; c_number : Color; c_boolean : Color; c_null : Color;
  c_undefined : Color; c_bigint : Color; c_symbol : Color; c_function : Color;
  c_class : Color; c_date : Color; c_regexp : Color; c_array : Color;
  c_object : Color; c_set : Color; c_map : Color; c_instance : Color
}.

Record StringOptions : Type := { maxLength : number; quotes : Quotes }.
Record ArrayOptions : Type := { array_maxItems : number; showLength : bool }.
Record ObjectOptions : Type := { maxKeys : number; sortKeys : bool }.
Record SetOptions : Type := { set_maxItems : number; set_showSize : bool }.
Record MapOptions : Type := {
  map_maxItems : number; map_showSize : bool; map_divider : jsstring
}.
Record DateOptions : Type := { format : DateFormat }.

Record ResolvedOptions : Type := {
  chars : CharsOptions;
  connectorColor : Color;
  indent : jsstring;
  maxDepth : number;
  showRoot : bool;
  colors : ColorsOptions;
  o_string : StringOptions;
  o_array : ArrayOptions;
  o_object : ObjectOptions;
  o_set : SetOptions;
  o_map : MapOptions;
  o_date : DateOptions
}.

(** [ObjectTreeOptions]: every section and every field optional; [None] is
    an absent property. A supplied property holds a value of its type, as
    [ResolvedOptions] requires of the merged section: a property present
    with the value [undefined] is not modelled. *)
Module Partial.
Record CharsOptions : Type := {
  tee : option jsstring; ell : option jsstring; pipe : option jsstring
}.
Record ColorsOptions : Type := {
  c_string : option Color; c_number : option Color; c_boolean : option Color;
  c_null : option Color; c_undefined : option Color; c_bigint : option Color;
  c_symbol : option Color; c_function : option Color; c_class : option Color;
  c_date : option Color; c_regexp : option Color; c_array : option Color;
  c_object : option Color; c_set : option Color; c_map : option Color;
  c_instance : option Color
}.
Record StringOptions : Type := {
  maxLength : option number; quotes : option Quotes
}.
Record ArrayOptions : Type := {
  array_maxItems : option number; showLength : option bool
}.
Record ObjectOptions : Type := {
  maxKeys : option number; sortKeys : option bool
}.
Record SetOptions : Type := {
  set_maxItems : option number; set_showSize : option bool
}.
Record MapOptions : Type := {
  map_maxItems : option number; map_showSize : option bool;
  map_divider : option jsstring
}.
Record DateOptions : Type := { format : option DateFormat }.

Record ObjectTreeOptions : Type := {
  chars : option CharsOptions;
  connectorColor : option Color;
  indent : option jsstring;
  maxDepth : option number;
  showRoot : option bool;
  colors : option ColorsOptions;
  o_string : option StringOptions;
  o_array : option ArrayOptions;
  o_object : option ObjectOptions;
  o_set : option SetOptions;
  o_map : option MapOptions;
  o_date : option DateOptions
}.

(** The empty object [{}], the default argument of the constructor. *)
Definition empty : ObjectTreeOptions :=
  {| chars := None; connectorColor := None; indent := None;
     maxDepth := None; showRoot := None; colors := None; o_string := None;
     o_array := None; o_object := None; o_set := None; o_map := None;
     o_date := None |}.
End Partial.

(** A [Date]: invalid (its time value is NaN), or valid with the two
    renderings the host gives it, [toISOString()] and [toLocaleString()]. *)
Inductive date : Type :=
| InvalidDate
| ValidDate (iso locale : jsstring).

(** The values the classifier distinguishes. A function carries its [name]
    and the source text [Function.prototype.toString] returns; an instance
    carries the name of its constructor, when it has one, and its own
    enumerable string keyed properties in [Object.keys] order, as a plain
    object does; a hole of a sparse array is [VUndefined]. The handlers
    read a key [k] of a map only through [String(k)]: an entry of a map is
    that text with the entry's value, so the keys of a map are those the
    host converts to a string. Values are finite trees: an object that
    contains itself is not a [value]. A value is data and of one kind: its
    properties are data properties (reading one runs no code), and an
    object of two kinds at once, such as a function whose prototype is
    [Date.prototype], is not a [value]. *)
Inductive value : Type :=
| VNull
| VUndefined
| VBoolean (b : bool)
| VNumber (n : number)
| VBigInt (z : Z)
| VSymbol (description : option jsstring)
| VString (s : jsstring)
| VDate (d : date)
| VRegExp (text : jsstring)
| VArray (items : list value)
| VSet (items : list value)
| VMap (entries : list (jsstring * value))
| VFunction (name source : jsstring)
| VInstance (ctorName : option jsstring) (fields : list (jsstring * value))
| VObject (fields : list (jsstring * value)).

(** [RenderResult] and the entries of its [children]. *)
Record ChildEntry : Type := {
  key : jsstring;
  child_value : value;
  divider : option jsstring
}.

Record RenderResult : Type := {
  header : jsstring;
  children : option (list ChildEntry)
}.

(** What a call does: it returns, or it throws. The third case is the
    walker's recursion budget and is shown never to occur. On a [value] the
    one call of the handlers that throws is [toISOString]; the errors of
    the host on what is not a [value] (a key of a map without a string
    conversion, an accessor that throws) are not modelled. *)
Inductive error : Type :=
| RangeError (message : jsstring).

Inductive outcome (A : Type) : Type :=
| Ok (a : A)
| Throw (e : error)
| OutOfFuel.
Arguments Ok {A} a.
Arguments Throw {A} e.
Arguments OutOfFuel {A}.

(** The nesting depth of a value. *)
Fixpoint height (v : value) : nat :=
  match v with
  | VArray items | VSet items => S (list_max (map height items))
  | VMap entries => S (list_max (map (fun kv => height (snd kv)) entries))
  | VInstance _ fields | VObject fields =>
      S (list_max (map (fun kv => height (snd kv)) fields))
  | _ => 0
  end.

(* ------------------------------------------------------------------------- *)
(** ** Built-in conversions the handlers call *)
(* ------------------------------------------------------------------------- *)

(** [String(b)] *)
Definition Boolean_toString (b : bool) : jsstring :=
  if b then str "true" else str "false".

(** [String(sym)] *)
Definition Symbol_toString (description : option jsstring) : jsstring :=
  str "Symbol(" ++ match description with Some d => d | None => [] end ++ str ")".

(** [d.toISOString()] throws on an invalid date. *)
Definition toISOString (d : date) : outcome jsstring :=
  match d with
  | InvalidDate => Throw (RangeError (str "Invalid time value"))
  | ValidDate iso _ => Ok iso
  end.

(** [d.toLocaleString()] *)
Definition toLocaleString (d : date) : jsstring :=
  match d with
  | InvalidDate => str "Invalid Date"
  | ValidDate _ locale => locale
  end.

(** [value[k]] on a record of properties. *)
Fixpoint getProperty (fields : list (jsstring * value)) (k : jsstring) : value :=
  match fields with
  | [] => VUndefined
  | (k', v) :: rest =>
      if list_eq_dec N.eq_dec k' k then v else getProperty rest k
  end.

(** [Object.keys(value)] *)
Definition Object_keys (fields : list (jsstring * value)) : list jsstring :=
  map fst fields.

(** The indices a loop [for (let i = 0; i < toShow; i += 1)] visits. The
    limit [toShow] is [Math.min(len, ...)], so it never exceeds [len] and
    the scan of [0 .. len-1] stops where the loop does. *)
Fixpoint indicesBelow (i : Z) (len : nat) (toShow : number) : list Z :=
  match len with
  | O => []
  | S len' =>
      if num_lt (Int i) toShow then i :: indicesBelow (i + 1) len' toShow
      else []
  end.

(** [value[i]] on an array. *)
Definition getIndex (items : list value) (i : Z) : value :=
  if (i <? 0)%Z then VUndefined else nth (Z.to_nat i) items VUndefined.

(* ------------------------------------------------------------------------- *)
(** ** handlers.ts *)
(* ------------------------------------------------------------------------- *)

Section Handlers.

Variable chalk : Chalk.

(** Colorize text if chalk supports colors *)
Definition colorize (text : jsstring) (color : Color) : jsstring :=
  if (level chalk >? 0)%Z then paint chalk color text else text.

(** Check if a value is a plain object (not a class instance) *)
Definition isPlainObject (v : value) : bool :=
  match v with
  | VObject _ => true
  | _ => false
  end.

(** Check if a function is a class constructor *)
Definition isClass (v : value) : bool :=
  match v with
  | VFunction _ source => startsWith (str "class ") source
  | _ => false
  end.

(** Create truncation indicator *)
Definition truncationEntry (remaining : number) : ChildEntry :=
  {| key := str "…";
     child_value := VString (str "+" ++ Number_toString remaining ++ str " more");
     divider := None |}.

Definition Handler : Type :=
  value -> ResolvedOptions -> outcome (option RenderResult).

Definition leaf (h : jsstring) : outcome (option RenderResult) :=
  Ok (Some {| header := h; children := None |}).

(** Handle null, undefined, boolean, number, bigint, symbol *)
Definition handlePrimitive : Handler := fun v opts =>
  match v with
  | VNull => leaf (colorize (str "null") (c_null (colors opts)))
  | VUndefined => leaf (colorize (str "undefined") (c_undefined (colors opts)))
  | VBoolean b => leaf (colorize (Boolean_toString b) (c_boolean (colors opts)))
  | VNumber n =>
      let text := if Number_isNaN n then str "NaN" else Number_toString n in
      leaf (colorize text (c_number (colors opts)))
  | VBigInt z => leaf (colorize (Z_toString z ++ str "n") (c_bigint (colors opts)))
  | VSymbol d => leaf (colorize (Symbol_toString d) (c_symbol (colors opts)))
  | _ => Ok None
  end.

(** The [truncated] text of [handleString]. *)
Definition truncate (s : jsstring) (maxLength : number) : jsstring :=
  if num_gt (Int (Z.of_nat (List.length s))) maxLength
  then slice0 s (num_sub maxLength (Int 1)) ++ str "…"
  else s.

(** The double quote character. *)
Definition dq : jsstring := [34%N].

(** The [text] of [handleString]: the truncated text in its quotes. *)
Definition quote (truncated : jsstring) (q : Quotes) : jsstring :=
  match q with
  | QSingle => str "'" ++ truncated ++ str "'"
  | QDouble => dq ++ truncated ++ dq
  | QNone => truncated
  end.

(** Handle strings with truncation and quoting *)
Definition handleString : Handler := fun v opts =>
  match v with
  | VString s =>
      let truncated := truncate s (maxLength (o_string opts)) in
      let text := quote truncated (quotes (o_string opts)) in
      leaf (colorize text (c_string (colors opts)))
  | _ => Ok None
  end.

(** Handle arrays *)
Definition handleArray : Handler := fun v opts =>
  match v with
  | VArray items =>
      let len := Int (Z.of_nat (List.length items)) in
      let toShow := Math_min len (array_maxItems (o_array opts)) in
      let shown :=
        map (fun i => {| key := Z_toString i; child_value := getIndex items i;
                         divider := None |})
            (indicesBelow 0 (List.length items) toShow) in
      let children :=
        shown ++ (if num_lt toShow len
                  then [truncationEntry (num_sub len toShow)] else []) in
      let label :=
        if showLength (o_array opts)
        then str "Array(" ++ Number_toString len ++ str ")" else str "Array" in
      Ok (Some {| header := colorize label (c_array (colors opts));
                  children := Some children |})
  | _ => Ok None
  end.

(** The loop of [handleSet]: [for (const item of value)] with its [break]. *)
Fixpoint setLoop (items : list value) (i : Z) (toShow : number)
  : list ChildEntry :=
  match items with
  | [] => []
  | item :: rest =>
      if num_ge (Int i) toShow then []
      else {| key := Z_toString i; child_value := item; divider := None |}
             :: setLoop rest (i + 1) toShow
  end.

(** Handle Set *)
Definition handleSet : Handler := fun v opts =>
  match v with
  | VSet items =>
      let size := Int (Z.of_nat (List.length items)) in
      let toShow := Math_min size (set_maxItems (o_set opts)) in
      let children :=
        setLoop items 0 toShow
        ++ (if num_lt toShow size
            then [truncationEntry (num_sub size toShow)] else []) in
      let label :=
        if set_showSize (o_set opts)
        then str "Set(" ++ Number_toString size ++ str ")" else str "Set" in
      Ok (Some {| header := colorize label (c_set (colors opts));
                  children := Some children |})
  | _ => Ok None
  end.

(** The loop of [handleMap]: [for (const [k, v] of value)] with its [break];
    [k] is the text [String(k)] of the key. *)
Fixpoint mapLoop (entries : list (jsstring * value)) (i : Z) (toShow : number)
  (dv : jsstring) : list ChildEntry :=
  match entries with
  | [] => []
  | (k, v) :: rest =>
      if num_ge (Int i) toShow then []
      else {| key := k; child_value := v; divider := Some dv |}
             :: mapLoop rest (i + 1) toShow dv
  end.

(** Handle Map *)
Definition handleMap : Handler := fun v opts =>
  match v with
  | VMap entries =>
      let size := Int (Z.of_nat (List.length entries)) in
      let toShow := Math_min size (map_maxItems (o_map opts)) in
      let children :=
        mapLoop entries 0 toShow (map_divider (o_map opts))
        ++ (if num_lt toShow size
            then [truncationEntry (num_sub size toShow)] else []) in
      let label :=
        if map_showSize (o_map opts)
        then str "Map(" ++ Number_toString size ++ str ")" else str "Map" in
      Ok (Some {| header := colorize label (c_map (colors opts));
                  children := Some children |})
  | _ => Ok None
  end.

(** [name || "anonymous"] *)
Definition nameOr (name fallback : jsstring) : jsstring :=
  match name with
  | [] => fallback
  | _ => name
  end.

(** Handle functions (not class constructors) *)
Definition handleFunction : Handler := fun v opts =>
  match v with
  | VFunction name _ =>
      if isClass v then Ok None
      else leaf (colorize (str "Function(" ++ nameOr name (str "anonymous") ++ str ")")
                          (c_function (colors opts)))
  | _ => Ok None
  end.

(** Handle class constructors *)
Definition handleClass : Handler := fun v opts =>
  if isClass v then
    match v with
    | VFunction name _ =>
        leaf (colorize (str "Class(" ++ nameOr name (str "anonymous") ++ str ")")
                       (c_class (colors opts)))
    | _ => Ok None
    end
  else Ok None.

(** Handle Date instances *)
Definition handleDate : Handler := fun v opts =>
  match v with
  | VDate d =>
      match format (o_date opts) with
      | FIso =>
          match toISOString d with
          | Ok iso => leaf (colorize (str "Date(" ++ iso ++ str ")") (c_date (colors opts)))
          | Throw e => Throw e
          | OutOfFuel => OutOfFuel
          end
      | FLocale =>
          leaf (colorize (str "Date(" ++ toLocaleString d ++ str ")")
                         (c_date (colors opts)))
      | FNone => leaf (colorize (str "Date()") (c_date (colors opts)))
      end
  | _ => Ok None
  end.

(** Handle RegExp instances *)
Definition handleRegExp : Handler := fun v opts =>
  match v with
  | VRegExp text => leaf (colorize text (c_regexp (colors opts)))
  | _ => Ok None
  end.

(** The loop shared by [handleObject] and [handleInstance]:
    [for (let i = 0; i < toShow; i += 1)] over [keys], skipping an
    [undefined] key. *)
Definition keyLoop (fields : list (jsstring * value)) (keys : list jsstring)
  (toShow : number) : list ChildEntry :=
  flat_map (fun i =>
              match nth_error keys (Z.to_nat i) with
              | Some k => [{| key := k; child_value := getProperty fields k;
                              divider := None |}]
              | None => []
              end)
           (indicesBelow 0 (List.length keys) toShow).

(** Handle plain objects *)
Definition handleObject : Handler := fun v opts =>
  match v with
  | VObject fields =>
      let keys := Object_keys fields in
      let keys := if sortKeys (o_object opts) then sort keys else keys in
      let len := Int (Z.of_nat (List.length keys)) in
      let toShow := Math_min len (maxKeys (o_object opts)) in
      let children :=
        keyLoop fields keys toShow
        ++ (if num_lt toShow len
            then [truncationEntry (num_sub len toShow)] else []) in
      Ok (Some {| header := colorize (str "Object{}") (c_object (colors opts));
                  children := Some children |})
  | _ => Ok None
  end.

(** Handle class instances (non-plain objects) *)
Definition handleInstance : Handler := fun v opts =>
  match v with
  | VInstance ctor fields =>
      let ctorName :=
        nameOr (match ctor with Some n => n | None => [] end) (str "Object") in
      let ownKeys := Object_keys fields in
      let len := Int (Z.of_nat (List.length ownKeys)) in
      let toShow := Math_min len (maxKeys (o_object opts)) in
      let children :=
        keyLoop fields ownKeys toShow
        ++ (if num_lt toShow len
            then [truncationEntry (num_sub len toShow)] else []) in
      Ok (Some {| header := colorize (ctorName ++ str "{}") (c_instance (colors opts));
                  children := Some children |})
  | _ => Ok None
  end.

(** Handler chain - order matters (more specific first) *)
Definition handlers : list Handler :=
  [ handlePrimitive; handleString; handleDate; handleRegExp; handleArray;
    handleSet; handleMap; handleFunction; handleClass; handleInstance;
    handleObject ].

(** The loop of [renderValue]: the first handler that returns a result. *)
Fixpoint firstResult (hs : list Handler) (v : value) (opts : ResolvedOptions)
  : outcome RenderResult :=
  match hs with
  | [] => Ok {| header := str "Unknown"; children := None |}
  | handler :: rest =>
      match handler v opts with
      | Ok (Some result) => Ok result
      | Ok None => firstResult rest v opts
      | Throw e => Throw e
      | OutOfFuel => OutOfFuel
      end
  end.

(** Render a value using the first matching handler *)
Definition renderValue (v : value) (opts : ResolvedOptions)
  : outcome RenderResult :=
  firstResult handlers v opts.

End Handlers.

(* ------------------------------------------------------------------------- *)
(** ** object-tree.ts *)
(* ------------------------------------------------------------------------- *)

(** Default configuration *)
Definition defaults : ResolvedOptions :=
  {| chars := {| tee := str "├─"; ell := str "└─"; pipe := str "│" |};
     connectorColor := gray;
     indent := str "  ";
     maxDepth := PosInfinity;
     showRoot := false;
     colors :=
       {| c_string := green; c_number := cyan; c_boolean := yellow;
          c_null := red; c_undefined := gray; c_bigint := cyan;
          c_symbol := magenta; c_function := gray; c_class := cyan;
          c_date := magenta; c_regexp := red; c_array := yellow;
          c_object := cyan; c_set := green; c_map := blue;
          c_instance := cyan |};
     o_string := {| maxLength := Int 80; quotes := QDouble |};
     o_array := {| array_maxItems := PosInfinity; showLength := true |};
     o_object := {| maxKeys := PosInfinity; sortKeys := true |};
     o_set := {| set_maxItems := PosInfinity; set_showSize := true |};
     o_map := {| map_maxItems := PosInfinity; map_showSize := true;
                 map_divider := str " → " |};
     o_date := {| format := FNone |} |}.

(** [supplied ?? fallback], and one property of a spread
    [{ ...fallback, ...supplied }]. *)
Definition orDefault {A : Type} (supplied : option A) (fallback : A) : A :=
  match supplied with
  | Some a => a
  | None => fallback
  end.

(** [{ ...d, ...o }] for each section: the properties present in [o]
    override those of [d]; an absent section spreads nothing. *)
Definition spreadChars (d : CharsOptions) (o : option Partial.CharsOptions)
  : CharsOptions :=
  match o with
  | None => d
  | Some p =>
      {| tee := orDefault (Partial.tee p) (tee d);
         ell := orDefault (Partial.ell p) (ell d);
         pipe := orDefault (Partial.pipe p) (pipe d) |}
  end.

Definition spreadColors (d : ColorsOptions) (o : option Partial.ColorsOptions)
  : ColorsOptions :=
  match o with
  | None => d
  | Some p =>
      {| c_string := orDefault (Partial.c_string p) (c_string d);
         c_number := orDefault (Partial.c_number p) (c_number d);
         c_boolean := orDefault (Partial.c_boolean p) (c_boolean d);
         c_null := orDefault (Partial.c_null p) (c_null d);
         c_undefined := orDefault (Partial.c_undefined p) (c_undefined d);
         c_bigint := orDefault (Partial.c_bigint p) (c_bigint d);
         c_symbol := orDefault (Partial.c_symbol p) (c_symbol d);
         c_function := orDefault (Partial.c_function p) (c_function d);
         c_class := orDefault (Partial.c_class p) (c_class d);
         c_date := orDefault (Partial.c_date p) (c_date d);
         c_regexp := orDefault (Partial.c_regexp p) (c_regexp d);
         c_array := orDefault (Partial.c_array p) (c_array d);
         c_object := orDefault (Partial.c_object p) (c_object d);
         c_set := orDefault (Partial.c_set p) (c_set d);
         c_map := orDefault (Partial.c_map p) (c_map d);
         c_instance := orDefault (Partial.c_instance p) (c_instance d) |}
  end.

Definition spreadString (d : StringOptions) (o : option Partial.StringOptions)
  : StringOptions :=
  match o with
  | None => d
  | Some p =>
      {| maxLength := orDefault (Partial.maxLength p) (maxLength d);
         quotes := orDefault (Partial.quotes p) (quotes d) |}
  end.

Definition spreadArray (d : ArrayOptions) (o : option Partial.ArrayOptions)
  : ArrayOptions :=
  match o with
  | None => d
  | Some p =>
      {| array_maxItems := orDefault (Partial.array_maxItems p) (array_maxItems d);
         showLength := orDefault (Partial.showLength p) (showLength d) |}
  end.

Definition spreadObject (d : ObjectOptions) (o : option Partial.ObjectOptions)
  : ObjectOptions :=
  match o with
  | None => d
  | Some p =>
      {| maxKeys := orDefault (Partial.maxKeys p) (maxKeys d);
         sortKeys := orDefault (Partial.sortKeys p) (sortKeys d) |}
  end.

Definition spreadSet (d : SetOptions) (o : option Partial.SetOptions)
  : SetOptions :=
  match o with
  | None => d
  | Some p =>
      {| set_maxItems := orDefault (Partial.set_maxItems p) (set_maxItems d);
         set_showSize := orDefault (Partial.set_showSize p) (set_showSize d) |}
  end.

Definition spreadMap (d : MapOptions) (o : option Partial.MapOptions)
  : MapOptions :=
  match o with
  | None => d
  | Some p =>
      {| map_maxItems := orDefault (Partial.map_maxItems p) (map_maxItems d);
         map_showSize := orDefault (Partial.map_showSize p) (map_showSize d);
         map_divider := orDefault (Partial.map_divider p) (map_divider d) |}
  end.

Definition spreadDate (d : DateOptions) (o : option Partial.DateOptions)
  : DateOptions :=
  match o with
  | None => d
  | Some p => {| format := orDefault (Partial.format p) (format d) |}
  end.

(** Merge user options with defaults *)
Definition resolveOptions (opts : Partial.ObjectTreeOptions) : ResolvedOptions :=
  {| chars := spreadChars (chars defaults) (Partial.chars opts);
     connectorColor := orDefault (Partial.connectorColor opts) (connectorColor defaults);
     indent := orDefault (Partial.indent opts) (indent defaults);
     maxDepth := orDefault (Partial.maxDepth opts) (maxDepth defaults);
     showRoot := orDefault (Partial.showRoot opts) (showRoot defaults);
     colors := spreadColors (colors defaults) (Partial.colors opts);
     o_string := spreadString (o_string defaults) (Partial.o_string opts);
     o_array := spreadArray (o_array defaults) (Partial.o_array opts);
     o_object := spreadObject (o_object defaults) (Partial.o_object opts);
     o_set := spreadSet (o_set defaults) (Partial.o_set opts);
     o_map := spreadMap (o_map defaults) (Partial.o_map opts);
     o_date := spreadDate (o_date defaults) (Partial.o_date opts) |}.

(** The class [ObjectTree]: its only field. *)
Record ObjectTree : Type := { opts : ResolvedOptions }.

(** [new ObjectTree(options)] *)
Definition new_ObjectTree (options : Partial.ObjectTreeOptions) : ObjectTree :=
  {| opts := resolveOptions options |}.

Section Walker.

Variable chalk : Chalk.
Variable this : ObjectTree.

(** Colorize connector character *)
Definition connector (char : jsstring) : jsstring :=
  if (level chalk >? 0)%Z then paint chalk (connectorColor (opts this)) char
  else char.

(** Build the prefix string for a line *)
Definition buildPrefix (levels : list bool) (isLast : option bool) : jsstring :=
  let prefix :=
    fold_left
      (fun prefix (hasMoreSiblings : bool) =>
         prefix ++ (if hasMoreSiblings
                    then connector (pipe (chars (opts this))) ++ indent (opts this)
                    else str " " ++ indent (opts this)))
      levels [] in
  match isLast with
  | Some true => prefix ++ connector (ell (chars (opts this))) ++ str " "
  | Some false => prefix ++ connector (tee (chars (opts this))) ++ str " "
  | None => prefix
  end.

(** The test of the walker's truncation branch:
    [typeof value === "string" && value.startsWith("+") && value.includes("more")] *)
Definition looksLikeTruncation (v : value) : bool :=
  match v with
  | VString s => startsWith (str "+") s && includes (str "more") s
  | _ => false
  end.

(** The loop [for (const [i, child] of result.children.entries())], the
    recursive call being [walk1]. *)
Fixpoint walkChildren
  (walk1 : value -> list jsstring -> list bool -> Z -> option jsstring
           -> option bool -> jsstring -> outcome (list jsstring))
  (children : list ChildEntry) (i lastIndex : Z) (lines : list jsstring)
  (childLevels : list bool) (depth : Z) : outcome (list jsstring) :=
  match children with
  | [] => Ok lines
  | child :: rest =>
      match walk1 (child_value child) lines childLevels (depth + 1)%Z
                  (Some (key child)) (Some (i =? lastIndex)%Z)
                  (orDefault (divider child) (str ": ")) with
      | Ok lines' =>
          walkChildren walk1 rest (i + 1)%Z lastIndex lines' childLevels depth
      | Throw e => Throw e
      | OutOfFuel => OutOfFuel
      end
  end.

(** The body of [walk], its recursive call being [walk1]. [lines] is the
    array the calls push to; the result is its content when the call
    returns. *)
Definition walkBody
  (walk1 : value -> list jsstring -> list bool -> Z -> option jsstring
           -> option bool -> jsstring -> outcome (list jsstring))
  (v : value) (lines : list jsstring) (levels : list bool) (depth : Z)
  (keyLabel : option jsstring) (isLast : option bool) (dv : jsstring)
  : outcome (list jsstring) :=
  if num_gt (Int depth) (maxDepth (opts this)) then Ok lines
  else if looksLikeTruncation v then
    (* Handle truncation markers *)
    let prefix := buildPrefix levels isLast in
    let label := match keyLabel with Some k => k ++ dv | None => [] end in
    let text :=
      match v with
      | VString s => if (level chalk >? 0)%Z then paint chalk gray s else s
      | _ => []
      end in
    Ok (lines ++ [prefix ++ label ++ text])
  else
    match renderValue chalk v (opts this) with
    | Throw e => Throw e
    | OutOfFuel => OutOfFuel
    | Ok result =>
        (* Build and push the current line *)
        let lines1 :=
          match keyLabel with
          | Some k =>
              lines ++ [buildPrefix levels isLast ++ k ++ dv ++ header result]
          | None =>
              if showRoot (opts this) || (depth >? 0)%Z
              then lines ++ [buildPrefix levels isLast ++ header result]
              else lines
          end in
        (* Render children *)
        match children result with
        | Some ((_ :: _) as cs) =>
            let childLevels :=
              if (depth =? 0)%Z then levels
              else levels ++ [negb (match isLast with
                                    | Some true => true
                                    | _ => false
                                    end)] in
            let lastIndex := (Z.of_nat (List.length cs) - 1)%Z in
            walkChildren walk1 cs 0 lastIndex lines1 childLevels depth
        | _ => Ok lines1
        end
    end.

(** Recursively walk and render the tree. The recursion is on a budget
    [fuel]; a budget above the nesting depth of the value is never
    exhausted. *)
Fixpoint walk (fuel : nat) : value -> list jsstring -> list bool -> Z
  -> option jsstring -> option bool -> jsstring -> outcome (list jsstring) :=
  match fuel with
  | O => fun _ _ _ _ _ _ _ => OutOfFuel
  | S fuel' => walkBody (walk fuel')
  end.

(** Render object to array of lines *)
Definition render (root : value) : outcome (list jsstring) :=
  walk (S (height root)) root [] [] 0 None None (str ": ").

End Walker.

(** A colour environment without ANSI support: [chalk.level] is 0. *)
Definition plainChalk : Chalk := {| level := 0; paint := fun _ text => text |}.

(** The property [field] of an optional section, absent when the section
    is. *)
Definition supplied {S A : Type} (section : option S) (field : S -> option A)
  : option A :=
  match section with
  | Some s => field s
  | None => None
  end.

(* ------------------------------------------------------------------------- *)
(** ** Vocabulary of the properties *)
(* ------------------------------------------------------------------------- *)

(** A limit ([maxItems], [maxKeys]) as the data model has it: a
    non-negative integer, or unbounded. *)
Definition isLimit (M : number) : Prop :=
  match M with
  | Int m => (0 <= m)%Z
  | PosInfinity => True
  | _ => False
  end.

(** [min(S, M)] as a count. *)
Definition shownCount (S : nat) (M : number) : nat :=
  match M with
  | Int m => Nat.min S (Z.to_nat m)
  | PosInfinity => S
  | _ => 0
  end.

(** The elements of an array or a set under their positions, from [i] on. *)
Fixpoint indexedFrom (i : Z) (items : list value) : list ChildEntry :=
  match items with
  | [] => []
  | item :: rest =>
      {| key := Z_toString i; child_value := item; divider := None |}
        :: indexedFrom (i + 1) rest
  end.

(** The entry of the property [k] of an object. *)
Definition propertyEntry (fields : list (jsstring * value)) (k : jsstring)
  : ChildEntry :=
  {| key := k; child_value := getProperty fields k; divider := None |}.

(** The entry of one pair of a map. *)
Definition mapEntry (dv : jsstring) (kv : jsstring * value) : ChildEntry :=
  {| key := fst kv; child_value := snd kv; divider := Some dv |}.

(** A container, seen as all its entries in the order its handler visits
    them, with the limit configured for its kind. *)
Definition containerEntries (v : value) (opts : ResolvedOptions)
  : option (list ChildEntry * number) :=
  match v with
  | VArray items => Some (indexedFrom 0 items, array_maxItems (o_array opts))
  | VSet items => Some (indexedFrom 0 items, set_maxItems (o_set opts))
  | VMap entries =>
      Some (map (mapEntry (map_divider (o_map opts))) entries,
            map_maxItems (o_map opts))
  | VObject fields =>
      Some (map (propertyEntry fields)
                (if sortKeys (o_object opts) then sort (Object_keys fields)
                 else Object_keys fields),
            maxKeys (o_object opts))
  | VInstance _ fields =>
      Some (map (propertyEntry fields) (Object_keys fields),
            maxKeys (o_object opts))
  | _ => None
  end.

(** The true size of a container: [length], [size], or the number of own
    enumerable keys. *)
Definition containerSize (v : value) : nat :=
  match v with
  | VArray items | VSet items => List.length items
  | VMap entries => List.length entries
  | VObject fields | VInstance _ fields => List.length fields
  | _ => 0
  end.

(** The result of [renderValue] when the handler [h] is the first to match;
    ["Unknown"] when none does. *)
Definition firstMatch (o : outcome (option RenderResult)) : outcome RenderResult :=
  match o with
  | Ok (Some result) => Ok result
  | Ok None => Ok {| header := str "Unknown"; children := None |}
  | Throw e => Throw e
  | OutOfFuel => OutOfFuel
  end.

(** [new ObjectTree({ array: { maxItems: m } })] *)
Definition treeWithMaxItems (m : number) : ObjectTree :=
  new_ObjectTree
    {| Partial.chars := None; Partial.connectorColor := None;
       Partial.indent := None; Partial.maxDepth := None;
       Partial.showRoot := None; Partial.colors := None;
       Partial.o_string := None;
       Partial.o_array :=
         Some {| Partial.array_maxItems := Some m; Partial.showLength := None |};
       Partial.o_object := None; Partial.o_set := None; Partial.o_map := None;
       Partial.o_date := None |}.

(** [new ObjectTree({ object: { maxKeys: m, sortKeys: b } })] *)
Definition treeWithObject (m : number) (b : bool) : ObjectTree :=
  new_ObjectTree
    {| Partial.chars := None; Partial.connectorColor := None;
       Partial.indent := None; Partial.maxDepth := None;
       Partial.showRoot := None; Partial.colors := None;
       Partial.o_string := None; Partial.o_array := None;
       Partial.o_object :=
         Some {| Partial.maxKeys := Some m; Partial.sortKeys := Some b |};
       Partial.o_set := None; Partial.o_map := None; Partial.o_date := None |}.

(** [[10, 11, 12, 13, 14, 15, 16]] *)
Definition sample_seven : value :=
  VArray (map (fun z => VNumber (Int z)) [10; 11; 12; 13; 14; 15; 16]%Z).

(** [{ pear: 1, apple: 2, fig: 3 }] *)
Definition sample_fruit : value :=
  VObject [(str "pear", VNumber (Int 1)); (str "apple", VNumber (Int 2));
           (str "fig", VNumber (Int 3))].

(** A length limit of at least [k], or unbounded. *)
Definition atLeast (k : Z) (n : number) : Prop :=
  match n with
  | Int z => (k <= z)%Z
  | PosInfinity => True
  | _ => False
  end.

(** String truncation in the words of the specification: a string longer
    than [maxLength] keeps its first [maxLength - 1] characters and gets one
    ellipsis; any other string is unchanged. *)
Definition spec_truncate (s : jsstring) (maxLength : Z) : jsstring :=
  if (maxLength <? Z.of_nat (List.length s))%Z
  then firstn (Z.to_nat (maxLength - 1)) s ++ str "…"
  else s.

(** The outcome of a call that pushes to an array already holding [lines],
    from the outcome of the same call on an empty array. *)
Definition prepend (lines : list jsstring) (r : outcome (list jsstring))
  : outcome (list jsstring) :=
  match r with
  | Ok extra => Ok (lines ++ extra)
  | Throw e => Throw e
  | OutOfFuel => OutOfFuel
  end.

(** The type of [walk] at a fixed budget. *)
Definition Walk : Type :=
  value -> list jsstring -> list bool -> Z -> option jsstring -> option bool
  -> jsstring -> outcome (list jsstring).

(** [w] pushes the same lines for [x] whatever the array holds. *)
Definition framed (w : Walk) (x : value) : Prop :=
  forall lines levels depth k l dv,
    w x lines levels depth k l dv = prepend lines (w x [] levels depth k l dv).

(** The reading of the root's depth the specification gives: with
    [showRoot] false and [maxDepth] 0 every direct child of the root has
    its line in the output. *)
Definition spec_root_children_at_depth_zero : Prop :=
  forall chalk t root node cs lines,
    showRoot (opts t) = false ->
    maxDepth (opts t) = Int 0 ->
    renderValue chalk root (opts t) = Ok node ->
    children node = Some cs ->
    render chalk t root = Ok lines ->
    List.length cs <= List.length lines.

(* ------------------------------------------------------------------------- *)
(** ** Sample values and configurations *)
(* ------------------------------------------------------------------------- *)

Definition defaultTree : ObjectTree := new_ObjectTree Partial.empty.

(** [{ a: 1, b: 2 }] *)
Definition sample_ab : value :=
  VObject [(str "a", VNumber (Int 1)); (str "b", VNumber (Int 2))].

(** A colour environment with ANSI support; brackets stand for the escape
    codes around a painted text. *)
Definition markChalk : Chalk :=
  {| level := 1; paint := fun _ text => str "[" ++ text ++ str "]" |}.

(** [new ObjectTree({ showRoot: true })] *)
Definition treeWithShowRoot : ObjectTree :=
  new_ObjectTree
    {| Partial.chars := None; Partial.connectorColor := None;
       Partial.indent := None; Partial.maxDepth := None;
       Partial.showRoot := Some true; Partial.colors := None;
       Partial.o_string := None; Partial.o_array := None;
       Partial.o_object := None; Partial.o_set := None;
       Partial.o_map := None; Partial.o_date := None |}.

(** [new ObjectTree({ maxDepth: d })] *)
Definition treeWithMaxDepth (d : number) : ObjectTree :=
  new_ObjectTree
    {| Partial.chars := None; Partial.connectorColor := None;
       Partial.indent := None; Partial.maxDepth := Some d;
       Partial.showRoot := None; Partial.colors := None;
       Partial.o_string := None; Partial.o_array := None;
       Partial.o_object := None; Partial.o_set := None;
       Partial.o_map := None; Partial.o_date := None |}.

(** [new ObjectTree({ date: { format: "iso" } })] *)
Definition isoTree : ObjectTree :=
  new_ObjectTree
    {| Partial.chars := None; Partial.connectorColor := None;
       Partial.indent := None; Partial.maxDepth := None;
       Partial.showRoot := None; Partial.colors := None;
       Partial.o_string := None; Partial.o_array := None;
       Partial.o_object := None; Partial.o_set := None;
       Partial.o_map := None;
       Partial.o_date := Some {| Partial.format := Some FIso |} |}.

(** [new ObjectTree({ string: { maxLength: m } })] *)
Definition treeWithMaxLength (m : number) : ObjectTree :=
  new_ObjectTree
    {| Partial.chars := None; Partial.connectorColor := None;
       Partial.indent := None; Partial.maxDepth := None;
       Partial.showRoot := None; Partial.colors := None;
       Partial.o_string :=
         Some {| Partial.maxLength := Some m; Partial.quotes := None |};
       Partial.o_array := None; Partial.o_object := None;
       Partial.o_set := None; Partial.o_map := None; Partial.o_date := None |}.

(* ------------------------------------------------------------------------- *)
(** ** Vocabulary of the further properties *)
(* ------------------------------------------------------------------------- *)

(** The values a container holds: the elements of an array or a set, the
    values of a map, the values of the own properties of an object. *)
Definition subvalues (v : value) : list value :=
  match v with
  | VArray items | VSet items => items
  | VMap entries => map snd entries
  | VInstance _ fields | VObject fields => map snd fields
  | _ => []
  end.

(** [f] applied to every line a call pushes on an empty array. *)
Definition mapLines (f : jsstring -> jsstring) (r : outcome (list jsstring))
  : outcome (list jsstring) :=
  match r with
  | Ok ls => Ok (map f ls)
  | Throw e => Throw e
  | OutOfFuel => OutOfFuel
  end.

(** Two configurations that differ at most in their colours: the colour of
    each kind of value and the colour of the connectors. *)
Definition sameButColors (a b : ResolvedOptions) : Prop :=
  chars a = chars b /\ indent a = indent b /\ maxDepth a = maxDepth b
  /\ showRoot a = showRoot b /\ o_string a = o_string b
  /\ o_array a = o_array b /\ o_object a = o_object b /\ o_set a = o_set b
  /\ o_map a = o_map b /\ o_date a = o_date b.

(** The configuration [o] with [showRoot] set to [b]. *)
Definition withShowRoot (b : bool) (o : ResolvedOptions) : ResolvedOptions :=
  {| chars := chars o; connectorColor := connectorColor o; indent := indent o;
     maxDepth := maxDepth o; showRoot := b; colors := colors o;
     o_string := o_string o; o_array := o_array o; o_object := o_object o;
     o_set := o_set o; o_map := o_map o; o_date := o_date o |}.

(** [new ObjectTree({ connectorColor: c, colors: { number: c } })] *)
Definition treeWithColor (c : Color) : ObjectTree :=
  new_ObjectTree
    {| Partial.chars := None; Partial.connectorColor := Some c;
       Partial.indent := None; Partial.maxDepth := None;
       Partial.showRoot := None;
       Partial.colors :=
         Some {| Partial.c_string := None; Partial.c_number := Some c;
                 Partial.c_boolean := None; Partial.c_null := None;
                 Partial.c_undefined := None; Partial.c_bigint := None;
                 Partial.c_symbol := None; Partial.c_function := None;
                 Partial.c_class := None; Partial.c_date := None;
                 Partial.c_regexp := None; Partial.c_array := None;
                 Partial.c_object := None; Partial.c_set := None;
                 Partial.c_map := None; Partial.c_instance := None |};
       Partial.o_string := None; Partial.o_array := None;
       Partial.o_object := None; Partial.o_set := None;
       Partial.o_map := None; Partial.o_date := None |}.

(** A colour environment without support whose colour functions would
    change the text. *)
Definition mutedChalk : Chalk :=
  {| level := 0; paint := fun _ text => str "[" ++ text ++ str "]" |}.

(** The entries a handler's loop pushes before the marker, for the value
    [toShow] of [Math.min(size, limit)]: the loops of an array and of an
    object test [i < toShow], the loops of a set and of a map leave on
    [i >= toShow]; the two differ when [toShow] is [NaN]. *)
Definition loopEntries (v : value) (all : list ChildEntry) (toShow : number)
  : list ChildEntry :=
  match toShow with
  | Int t => firstn (Z.to_nat t) all
  | NaN => match v with
           | VSet _ | VMap _ => all
           | _ => []
           end
  | _ => []
  end.

(** [new ObjectTree({ set: { maxItems: m } })] *)
Definition treeWithSetMaxItems (m : number) : ObjectTree :=
  new_ObjectTree
    {| Partial.chars := None; Partial.connectorColor := None;
       Partial.indent := None; Partial.maxDepth := None;
       Partial.showRoot := None; Partial.colors := None;
       Partial.o_string := None; Partial.o_array := None;
       Partial.o_object := None;
       Partial.o_set :=
         Some {| Partial.set_maxItems := Some m; Partial.set_showSize := None |};
       Partial.o_map := None; Partial.o_date := None |}.

(** The entry of an own property: its key with its value. *)
Definition ownEntry (kv : jsstring * value) : ChildEntry :=
  {| key := fst kv; child_value := snd kv; divider := None |}.

(** [new ObjectTree({ object: { maxKeys: m } })] *)
Definition treeWithMaxKeys (m : number) : ObjectTree :=
  new_ObjectTree
    {| Partial.chars := None; Partial.connectorColor := None;
       Partial.indent := None; Partial.maxDepth := None;
       Partial.showRoot := None; Partial.colors := None;
       Partial.o_string := None; Partial.o_array := None;
       Partial.o_object :=
         Some {| Partial.maxKeys := Some m; Partial.sortKeys := None |};
       Partial.o_set := None; Partial.o_map := None; Partial.o_date := None |}.

(** An instance of [class Point] with the own properties [y] and [x], in
    that order. *)
Definition sample_point : value :=
  VInstance (Some (str "Point"))
    [(str "y", VNumber (Int 2)); (str "x", VNumber (Int 1))].

(** No limit is set: [maxDepth], [maxItems] and [maxKeys] are unbounded,
    as in the default configuration. *)
Definition unbounded (o : ResolvedOptions) : Prop :=
  maxDepth o = PosInfinity
  /\ array_maxItems (o_array o) = PosInfinity
  /\ maxKeys (o_object o) = PosInfinity
  /\ set_maxItems (o_set o) = PosInfinity
  /\ map_maxItems (o_map o) = PosInfinity.

(** The number of nodes of a value: the value itself and the nodes of the
    values it holds. *)
Fixpoint nodes (v : value) : nat :=
  match v with
  | VArray items | VSet items => S (list_sum (map nodes items))
  | VMap entries => S (list_sum (map (fun kv => nodes (snd kv)) entries))
  | VInstance _ fields | VObject fields =>
      S (list_sum (map (fun kv => nodes (snd kv)) fields))
  | _ => 1
  end.

(** The keys of every object and instance in the value are distinct, as
    the keys of an object are. *)
Fixpoint keysDistinct (v : value) : Prop :=
  match v with
  | VArray items | VSet items =>
      fold_right (fun x acc => keysDistinct x /\ acc) True items
  | VMap entries =>
      fold_right (fun kv acc => keysDistinct (snd kv) /\ acc) True entries
  | VInstance _ fields | VObject fields =>
      NoDup (map fst fields)
      /\ fold_right (fun kv acc => keysDistinct (snd kv) /\ acc) True fields
  | _ => True
  end.

(** [{ b: [1, { k: null }], a: new Set([true]) }] *)
Definition sample_nested : value :=
  VObject [(str "b", VArray [VNumber (Int 1); VObject [(str "k", VNull)]]);
           (str "a", VSet [VBoolean true])].

(** The walk of each child of a node on an array of its own, in the order
    of the loop of [walk]: the child at index [i] is the last one when [i]
    is [lastIndex]. *)
Fixpoint childBlocks
  (walk1 : value -> list jsstring -> list bool -> Z -> option jsstring
           -> option bool -> jsstring -> outcome (list jsstring))
  (children : list ChildEntry) (i lastIndex : Z) (childLevels : list bool)
  (depth : Z) : list (outcome (list jsstring)) :=
  match children with
  | [] => []
  | child :: rest =>
      walk1 (child_value child) [] childLevels (depth + 1)%Z (Some (key child))
            (Some (i =? lastIndex)%Z) (orDefault (divider child) (str ": "))
        :: childBlocks walk1 rest (i + 1)%Z lastIndex childLevels depth
  end.

(** The blocks one after the other, up to the first that throws. *)
Fixpoint concatBlocks (blocks : list (outcome (list jsstring)))
  : outcome (list jsstring) :=
  match blocks with
  | [] => Ok []
  | Ok ls :: rest => prepend ls (concatBlocks rest)
  | Throw e :: _ => Throw e
  | OutOfFuel :: _ => OutOfFuel
  end.

(** [a] is [b] with some of its elements left out, the others in the same
    order. *)
Inductive subsequence {A : Type} : list A -> list A -> Prop :=
| subsequence_nil : subsequence [] []
| subsequence_skip : forall x a b, subsequence a b -> subsequence a (x :: b)
| subsequence_keep : forall x a b, subsequence a b -> subsequence (x :: a) (x :: b).

(** The configuration [o] with [maxDepth] set to [d]. *)
Definition withMaxDepth (d : number) (o : ResolvedOptions) : ResolvedOptions :=
  {| chars := chars o; connectorColor := connectorColor o; indent := indent o;
     maxDepth := d; showRoot := showRoot o; colors := colors o;
     o_string := o_string o; o_array := o_array o; o_object := o_object o;
     o_set := o_set o; o_map := o_map o; o_date := o_date o |}.

(** The depth limit [a] omits every node the depth limit [b] omits. *)
Definition depthAtMost (a b : number) : Prop :=
  forall d, num_gt (Int d) b = true -> num_gt (Int d) a = true.

(** An integer a number holds exactly and prints in positional notation:
    between [-2^53] and [2^53]. *)
Definition safeInteger (z : Z) : Prop := (- 2 ^ 53 <= z <= 2 ^ 53)%Z.

(** The count [size - limit] of a marker is computed exactly: the size, an
    integer limit and their difference are safe integers (a limit of
    [-Infinity] gives the count [Infinity]). *)
Definition exactCount (S : nat) (M : number) : Prop :=
  match M with
  | Int m =>
      safeInteger (Z.of_nat S) /\ safeInteger m /\ safeInteger (Z.of_nat S - m)
  | _ => True
  end.

(* ------------------------------------------------------------------------- *)
(** ** Rendering in a world of arrays *)
(* ------------------------------------------------------------------------- *)

(** What a call of [render] reads and writes besides its arguments: the
    colour environment of the module [chalk], which it reads at every line,
    and the arrays of lines of the heap, which it creates and pushes to. An
    array is known by its location; two references to one location see the
    same pushes. A value is data, as everywhere in this development: reading
    it runs no code, and it is the same value in every world. *)
Definition loc : Type := nat.

Record World : Type := {
  env : Chalk;
  arrays : list (list jsstring)
}.

(** [[]]: a new array, at a location that no array of the world has. *)
Definition Array_new (w : World) : loc * World :=
  (List.length (arrays w), {| env := env w; arrays := arrays w ++ [[]] |}).

Fixpoint pushAt (a : loc) (x : jsstring) (arrs : list (list jsstring))
  : list (list jsstring) :=
  match arrs with
  | [] => []
  | l :: rest =>
      match a with
      | O => (l ++ [x]) :: rest
      | S a' => l :: pushAt a' x rest
      end
  end.

(** [lines.push(x)] *)
Definition Array_push (lines : loc) (x : jsstring) (w : World) : World :=
  {| env := env w; arrays := pushAt lines x (arrays w) |}.


(** The walker and [render] as the source has them: [lines] is a reference
    to an array of the world, every [push] changes that array in place, and
    [chalk.level] is read where the source reads it. The result is how the
    call completes and the world it leaves. *)
Module Stateful.

Definition Walk : Type :=
  value -> loc -> list bool -> Z -> option jsstring -> option bool
  -> jsstring -> World -> outcome unit * World.

Section Walker.

Variable this : ObjectTree.

Fixpoint walkChildren (walk1 : Walk) (children : list ChildEntry)
  (i lastIndex : Z) (lines : loc) (childLevels : list bool) (depth : Z)
  (w : World) : outcome unit * World :=
  match children with
  | [] => (Ok tt, w)
  | child :: rest =>
      match walk1 (child_value child) lines childLevels (depth + 1)%Z
                  (Some (key child)) (Some (i =? lastIndex)%Z)
                  (orDefault (divider child) (str ": ")) w with
      | (Ok _, w') =>
          walkChildren walk1 rest (i + 1)%Z lastIndex lines childLevels depth w'
      | (Throw e, w') => (Throw e, w')
      | (OutOfFuel, w') => (OutOfFuel, w')
      end
  end.

Definition walkBody (walk1 : Walk) (v : value) (lines : loc)
  (levels : list bool) (depth : Z) (keyLabel : option jsstring)
  (isLast : option bool) (dv : jsstring) (w : World) : outcome unit * World :=
  if num_gt (Int depth) (maxDepth (opts this)) then (Ok tt, w)
  else if looksLikeTruncation v then
    (* Handle truncation markers *)
    let prefix := buildPrefix (env w) this levels isLast in
    let label := match keyLabel with Some k => k ++ dv | None => [] end in
    let text :=
      match v with
      | VString s => if (level (env w) >? 0)%Z then paint (env w) gray s else s
      | _ => []
      end in
    (Ok tt, Array_push lines (prefix ++ label ++ text) w)
  else
    match renderValue (env w) v (opts this) with
    | Throw e => (Throw e, w)
    | OutOfFuel => (OutOfFuel, w)
    | Ok result =>
        (* Build and push the current line *)
        let w1 :=
          match keyLabel with
          | Some k =>
              Array_push lines
                (buildPrefix (env w) this levels isLast ++ k ++ dv ++ header result) w
          | None =>
              if showRoot (opts this) || (depth >? 0)%Z
              then Array_push lines
                     (buildPrefix (env w) this levels isLast ++ header result) w
              else w
          end in
        (* Render children *)
        match children result with
        | Some ((_ :: _) as cs) =>
            let childLevels :=
              if (depth =? 0)%Z then levels
              else levels ++ [negb (match isLast with
                                    | Some true => true
                                    | _ => false
                                    end)] in
            let lastIndex := (Z.of_nat (List.length cs) - 1)%Z in
            walkChildren walk1 cs 0 lastIndex lines childLevels depth w1
        | _ => (Ok tt, w1)
        end
    end.

Fixpoint walk (fuel : nat) : Walk :=
  match fuel with
  | O => fun _ _ _ _ _ _ _ w => (OutOfFuel, w)
  | S fuel' => walkBody (walk fuel')
  end.

(** [const lines = []; this.walk(root, lines, [], 0); return lines]: the
    reference returned is the location of the new array. *)
Definition render (root : value) (w : World) : outcome loc * World :=
  let (lines, w0) := Array_new w in
  match walk (S (height root)) root lines [] 0%Z None None (str ": ") w0 with
  | (Ok _, w1) => (Ok lines, w1)
  | (Throw e, w1) => (Throw e, w1)
  | (OutOfFuel, w1) => (OutOfFuel, w1)
  end.

End Walker.

End Stateful.





(** A world with two arrays, under the plain colour environment. *)
Definition sample_world : World :=
  {| env := plainChalk; arrays := [[str "kept"]; []] |}.

(* ========================================================================= *)
(** * Properties *)
(* ========================================================================= *)

(** ** Literals and number formatting *)

Example str_ascii : str "+1 more" = [43; 49; 32; 109; 111; 114; 101]%N.
Proof. reflexivity. Qed.

Example str_glyphs :
  str "…" = [8230]%N /\ str "├─" = [9500; 9472]%N /\ str "└─" = [9492; 9472]%N
  /\ str "│" = [9474]%N /\ str " → " = [32; 8594; 32]%N.
Proof. repeat split; reflexivity. Qed.

Example Z_toString_examples :
  Z_toString 0 = str "0" /\ Z_toString 42 = str "42" /\ Z_toString (-7) = str "-7".
Proof. repeat split; reflexivity. Qed.

(** ** Scenario A *)

(** C3. With the default options (so [showRoot] is false) and a colour
    environment without ANSI support, where [colorize] returns its text
    unchanged, [render({a: 1, b: 2})] is exactly the two lines
    ["├─ a: 1"] and ["└─ b: 2"], in that order. *)
Theorem render_scenario_A :
  forall chalk : Chalk,
    level chalk = 0%Z ->
    render chalk defaultTree sample_ab = Ok [str "├─ a: 1"; str "└─ b: 2"].
Proof.
  intros [lv pt] Hlevel. simpl in Hlevel. subst lv.
  vm_compute. reflexivity.
Qed.

Lemma render_scenario_A_witness :
  level plainChalk = 0%Z
  /\ render plainChalk defaultTree sample_ab = Ok [str "├─ a: 1"; str "└─ b: 2"].
Proof.
  split; [reflexivity | apply (render_scenario_A plainChalk); reflexivity].
Defined.

(** ** Truncation markers *)

(** C1. The walker does not look at the sentinel key: it takes for a
    truncation marker every string that starts with ["+"] and includes
    ["more"]. In the array [["+1 more", "one more"]] the first element, an
    ordinary string, is given the marker's line (no quotes), the second the
    line of a string; and a property whose key is the sentinel ["…"] is
    rendered as an ordinary string. The classifier itself gives the string
    ["+1 more"] its quoted header. *)
Theorem walk_marker_detected_by_text :
  render plainChalk defaultTree
    (VArray [VString (str "+1 more"); VString (str "one more")])
  = Ok [str "├─ 0: +1 more"; str "└─ 1: " ++ dq ++ str "one more" ++ dq]
  /\ renderValue plainChalk (VString (str "+1 more")) (opts defaultTree)
     = Ok {| header := dq ++ str "+1 more" ++ dq; children := None |}
  /\ render plainChalk defaultTree (VObject [(str "…", VString (str "hello"))])
     = Ok [str "└─ …: " ++ dq ++ str "hello" ++ dq].
Proof. repeat split; vm_compute; reflexivity. Qed.

(** C10. The string ["+1 more"] is classified into a node without children,
    and rendering it as the root with [showRoot] false returns one line, the
    string itself, where the list of lines should be empty. *)
Theorem render_root_marker_like_string :
  showRoot (opts defaultTree) = false
  /\ renderValue plainChalk (VString (str "+1 more")) (opts defaultTree)
     = Ok {| header := dq ++ str "+1 more" ++ dq; children := None |}
  /\ render plainChalk defaultTree (VString (str "+1 more")) = Ok [str "+1 more"].
Proof. repeat split; vm_compute; reflexivity. Qed.

(** ** Totality *)

(** C8. With [date.format] set to ["iso"], classifying an invalid date
    throws the [RangeError] of [toISOString], and so does rendering it,
    as the root or as a property. *)
Theorem renderValue_invalid_date_throws :
  renderValue plainChalk (VDate InvalidDate) (opts isoTree)
  = Throw (RangeError (str "Invalid time value"))
  /\ render plainChalk isoTree (VDate InvalidDate)
     = Throw (RangeError (str "Invalid time value"))
  /\ render plainChalk isoTree (VObject [(str "when", VDate InvalidDate)])
     = Throw (RangeError (str "Invalid time value")).
Proof. repeat split; vm_compute; reflexivity. Qed.

(** ** Option resolution *)

(** C6. Each section of the configuration is merged with its defaults on
    its own, property by property: a property the caller supplies is taken,
    every other one keeps its default, whichever section or sibling is
    supplied. The defaults are: [maxDepth], [maxItems] and [maxKeys]
    unbounded, [showRoot] false, [sortKeys] true, [showLength] and
    [showSize] true, date format ["none"], string quotes ["double"] with
    [maxLength] 80, map divider [" → "]. Supplying only [string.maxLength]
    keeps the double quotes. The same holds of each of the sixteen colours
    of the [colors] section. *)
Theorem resolveOptions_merges_each_section :
  resolveOptions Partial.empty = defaults
  /\ (maxDepth defaults = PosInfinity
      /\ array_maxItems (o_array defaults) = PosInfinity
      /\ set_maxItems (o_set defaults) = PosInfinity
      /\ map_maxItems (o_map defaults) = PosInfinity
      /\ maxKeys (o_object defaults) = PosInfinity
      /\ showRoot defaults = false
      /\ sortKeys (o_object defaults) = true
      /\ showLength (o_array defaults) = true
      /\ set_showSize (o_set defaults) = true
      /\ map_showSize (o_map defaults) = true
      /\ format (o_date defaults) = FNone
      /\ quotes (o_string defaults) = QDouble
      /\ maxLength (o_string defaults) = Int 80
      /\ map_divider (o_map defaults) = str " → ")
  /\ (forall o : Partial.ObjectTreeOptions,
        let r := resolveOptions o in
        maxDepth r = orDefault (Partial.maxDepth o) PosInfinity
        /\ showRoot r = orDefault (Partial.showRoot o) false
        /\ indent r = orDefault (Partial.indent o) (str "  ")
        /\ connectorColor r = orDefault (Partial.connectorColor o) gray
        /\ tee (chars r) = orDefault (supplied (Partial.chars o) Partial.tee) (str "├─")
        /\ ell (chars r) = orDefault (supplied (Partial.chars o) Partial.ell) (str "└─")
        /\ pipe (chars r) = orDefault (supplied (Partial.chars o) Partial.pipe) (str "│")
        /\ maxLength (o_string r)
           = orDefault (supplied (Partial.o_string o) Partial.maxLength) (Int 80)
        /\ quotes (o_string r)
           = orDefault (supplied (Partial.o_string o) Partial.quotes) QDouble
        /\ array_maxItems (o_array r)
           = orDefault (supplied (Partial.o_array o) Partial.array_maxItems) PosInfinity
        /\ showLength (o_array r)
           = orDefault (supplied (Partial.o_array o) Partial.showLength) true
        /\ maxKeys (o_object r)
           = orDefault (supplied (Partial.o_object o) Partial.maxKeys) PosInfinity
        /\ sortKeys (o_object r)
           = orDefault (supplied (Partial.o_object o) Partial.sortKeys) true
        /\ set_maxItems (o_set r)
           = orDefault (supplied (Partial.o_set o) Partial.set_maxItems) PosInfinity
        /\ set_showSize (o_set r)
           = orDefault (supplied (Partial.o_set o) Partial.set_showSize) true
        /\ map_maxItems (o_map r)
           = orDefault (supplied (Partial.o_map o) Partial.map_maxItems) PosInfinity
        /\ map_showSize (o_map r)
           = orDefault (supplied (Partial.o_map o) Partial.map_showSize) true
        /\ map_divider (o_map r)
           = orDefault (supplied (Partial.o_map o) Partial.map_divider) (str " → ")
        /\ format (o_date r)
           = orDefault (supplied (Partial.o_date o) Partial.format) FNone
        /\ c_string (colors r)
           = orDefault (supplied (Partial.colors o) Partial.c_string) green
        /\ c_number (colors r)
           = orDefault (supplied (Partial.colors o) Partial.c_number) cyan
        /\ c_boolean (colors r)
           = orDefault (supplied (Partial.colors o) Partial.c_boolean) yellow
        /\ c_null (colors r)
           = orDefault (supplied (Partial.colors o) Partial.c_null) red
        /\ c_undefined (colors r)
           = orDefault (supplied (Partial.colors o) Partial.c_undefined) gray
        /\ c_bigint (colors r)
           = orDefault (supplied (Partial.colors o) Partial.c_bigint) cyan
        /\ c_symbol (colors r)
           = orDefault (supplied (Partial.colors o) Partial.c_symbol) magenta
        /\ c_function (colors r)
           = orDefault (supplied (Partial.colors o) Partial.c_function) gray
        /\ c_class (colors r)
           = orDefault (supplied (Partial.colors o) Partial.c_class) cyan
        /\ c_date (colors r)
           = orDefault (supplied (Partial.colors o) Partial.c_date) magenta
        /\ c_regexp (colors r)
           = orDefault (supplied (Partial.colors o) Partial.c_regexp) red
        /\ c_array (colors r)
           = orDefault (supplied (Partial.colors o) Partial.c_array) yellow
        /\ c_object (colors r)
           = orDefault (supplied (Partial.colors o) Partial.c_object) cyan
        /\ c_set (colors r)
           = orDefault (supplied (Partial.colors o) Partial.c_set) green
        /\ c_map (colors r)
           = orDefault (supplied (Partial.colors o) Partial.c_map) blue
        /\ c_instance (colors r)
           = orDefault (supplied (Partial.colors o) Partial.c_instance) cyan)
  /\ (forall m : number,
        o_string (opts (treeWithMaxLength m))
        = {| maxLength := m; quotes := QDouble |}).
Proof.
  split; [reflexivity |].
  split; [repeat split |].
  split; [| intros m; reflexivity].
  intros o r. subst r.
  destruct o as [ch cc ind md sr cl os oa oo ot om od]; unfold resolveOptions;
    cbn [Partial.chars Partial.connectorColor Partial.indent Partial.maxDepth
         Partial.showRoot Partial.colors Partial.o_string Partial.o_array
         Partial.o_object Partial.o_set Partial.o_map Partial.o_date
         chars connectorColor indent maxDepth showRoot colors o_string o_array
         o_object o_set o_map o_date].
  repeat split; try reflexivity.
  all: try (destruct ch; reflexivity).
  all: try (destruct cl; reflexivity).
  all: try (destruct os; reflexivity).
  all: try (destruct oa; reflexivity).
  all: try (destruct oo; reflexivity).
  all: try (destruct ot; reflexivity).
  all: try (destruct om; reflexivity).
  all: destruct od; reflexivity.
Qed.

(** ** The default sort order *)

Lemma str_ltb_irrefl : forall a, str_ltb a a = false.
Proof.
  induction a as [|x a IH]; simpl; [reflexivity |].
  rewrite N.ltb_irrefl. exact IH.
Qed.

Lemma str_le_trans :
  forall a b c, str_le a b -> str_le b c -> str_le a c.
Proof.
  unfold str_le.
  induction a as [|x a IH]; intros [|y b] [|z c]; simpl; try congruence.
  intros Hab Hbc.
  destruct (N.ltb_spec y x), (N.ltb_spec x y), (N.ltb_spec z y),
    (N.ltb_spec y z), (N.ltb_spec z x), (N.ltb_spec x z);
    try congruence; try lia.
  eapply IH; eassumption.
Qed.

Lemma str_ltb_le : forall a b, str_ltb a b = true -> str_le a b.
Proof.
  unfold str_le.
  induction a as [|x a IH]; intros [|y b]; simpl; try congruence.
  intros Hab.
  destruct (N.ltb_spec y x), (N.ltb_spec x y); try congruence; try lia.
  apply IH; assumption.
Qed.

Lemma str_le_total : forall a b, str_le a b \/ str_le b a.
Proof.
  intros a b. destruct (str_ltb b a) eqn:E; [right | left; exact E].
  now apply str_ltb_le.
Qed.

Lemma str_le_antisym : forall a b, str_le a b -> str_le b a -> a = b.
Proof.
  unfold str_le.
  induction a as [|x a IH]; intros [|y b]; simpl; try congruence.
  intros Hab Hba.
  destruct (N.ltb_spec y x), (N.ltb_spec x y); try congruence; try lia.
  f_equal; [lia | now apply IH].
Qed.

Lemma sort_insert_perm : forall x l, Permutation (sort_insert x l) (x :: l).
Proof.
  induction l as [|y l IH]; simpl; [reflexivity |].
  destruct (str_ltb y x); [| reflexivity].
  rewrite IH. apply perm_swap.
Qed.

Lemma sort_insert_sorted :
  forall x l, Sorted str_le l -> Sorted str_le (sort_insert x l).
Proof.
  induction l as [|y l IH]; intros Hs; simpl.
  - repeat constructor.
  - destruct (str_ltb y x) eqn:Hyx.
    + inversion Hs as [|? ? Hl Hhd]; subst.
      constructor; [apply IH; assumption |].
      destruct l as [|z l]; simpl.
      * constructor. apply str_ltb_le; assumption.
      * destruct (str_ltb z x) eqn:Hzx.
        -- inversion Hhd; subst. constructor; assumption.
        -- constructor. apply str_ltb_le; assumption.
    + constructor; [assumption |]. constructor. exact Hyx.
Qed.

Lemma sort_perm : forall keys, Permutation (sort keys) keys.
Proof.
  induction keys as [|k keys IH]; simpl; [reflexivity |].
  rewrite sort_insert_perm. constructor. exact IH.
Qed.

Lemma sort_sorted : forall keys, StronglySorted str_le (sort keys).
Proof.
  intros keys. apply Sorted_StronglySorted.
  - intros a b c. apply str_le_trans.
  - induction keys as [|k keys IH]; simpl; [constructor |].
    apply sort_insert_sorted; assumption.
Qed.

Lemma sort_length : forall keys, List.length (sort keys) = List.length keys.
Proof. intros keys. apply Permutation_length, sort_perm. Qed.

Lemma StronglySorted_firstn :
  forall (A : Type) (R : A -> A -> Prop) n l,
    StronglySorted R l -> StronglySorted R (firstn n l).
Proof.
  intros A R n l Hs. revert n.
  induction Hs as [|a l Hs IH Hall]; intros [|n]; simpl; try constructor.
  - apply IH.
  - rewrite Forall_forall in *. intros x Hx. apply Hall.
    rewrite <- (firstn_skipn n l). apply in_or_app. left. exact Hx.
Qed.

(** ** The clamping loops of the container handlers *)

Lemma setLoop_firstn :
  forall items i t,
    setLoop items i (Int t) = firstn (Z.to_nat (t - i)) (indexedFrom i items).
Proof.
  induction items as [|x items IH]; intros i t; simpl.
  - now rewrite firstn_nil.
  - destruct (Z.leb_spec t i) as [Hle | Hlt].
    + replace (Z.to_nat (t - i)) with 0%nat by lia. reflexivity.
    + replace (Z.to_nat (t - i)) with (S (Z.to_nat (t - (i + 1)))) by lia.
      simpl. f_equal. apply IH.
Qed.

Lemma setLoop_NaN :
  forall items i, setLoop items i NaN = indexedFrom i items.
Proof.
  induction items as [|x items IH]; intros i; simpl; [reflexivity |].
  f_equal. apply IH.
Qed.

Lemma mapLoop_firstn :
  forall dv entries i t,
    mapLoop entries i (Int t) dv
    = firstn (Z.to_nat (t - i)) (map (mapEntry dv) entries).
Proof.
  induction entries as [|[k v] entries IH]; intros i t; simpl.
  - now rewrite firstn_nil.
  - destruct (Z.leb_spec t i) as [Hle | Hlt].
    + replace (Z.to_nat (t - i)) with 0%nat by lia. reflexivity.
    + replace (Z.to_nat (t - i)) with (S (Z.to_nat (t - (i + 1)))) by lia.
      simpl. f_equal. apply IH.
Qed.

Lemma getIndex_middle :
  forall pre x rest,
    getIndex (pre ++ x :: rest) (Z.of_nat (List.length pre)) = x.
Proof.
  intros pre x rest. unfold getIndex.
  destruct (Z.ltb_spec (Z.of_nat (List.length pre)) 0); [lia |].
  rewrite Nat2Z.id. apply nth_middle.
Qed.

Lemma arrayLoop_firstn :
  forall items pre t,
    map (fun j => {| key := Z_toString j;
                     child_value := getIndex (pre ++ items) j;
                     divider := None |})
        (indicesBelow (Z.of_nat (List.length pre)) (List.length items) (Int t))
    = firstn (Z.to_nat (t - Z.of_nat (List.length pre)))
             (indexedFrom (Z.of_nat (List.length pre)) items).
Proof.
  induction items as [|x items IH]; intros pre t; simpl.
  - now rewrite firstn_nil.
  - destruct (Z.ltb_spec (Z.of_nat (List.length pre)) t) as [Hlt | Hle].
    + replace (Z.to_nat (t - Z.of_nat (List.length pre)))
        with (S (Z.to_nat (t - (Z.of_nat (List.length pre) + 1)))) by lia.
      simpl. rewrite getIndex_middle. f_equal.
      specialize (IH (pre ++ [x]) t).
      rewrite <- app_assoc in IH. simpl in IH.
      rewrite length_app in IH. simpl in IH.
      replace (Z.of_nat (List.length pre + 1)) with (Z.of_nat (List.length pre) + 1)%Z
        in IH by lia.
      exact IH.
    + replace (Z.to_nat (t - Z.of_nat (List.length pre))) with 0%nat by lia.
      reflexivity.
Qed.

Lemma keyLoop_firstn_from :
  forall fields ks pre t,
    flat_map (fun i =>
                match nth_error (pre ++ ks) (Z.to_nat i) with
                | Some k => [{| key := k; child_value := getProperty fields k;
                                divider := None |}]
                | None => []
                end)
             (indicesBelow (Z.of_nat (List.length pre)) (List.length ks) (Int t))
    = firstn (Z.to_nat (t - Z.of_nat (List.length pre)))
             (map (propertyEntry fields) ks).
Proof.
  induction ks as [|k ks IH]; intros pre t; simpl.
  - now rewrite firstn_nil.
  - destruct (Z.ltb_spec (Z.of_nat (List.length pre)) t) as [Hlt | Hle].
    + replace (Z.to_nat (t - Z.of_nat (List.length pre)))
        with (S (Z.to_nat (t - (Z.of_nat (List.length pre) + 1)))) by lia.
      simpl. rewrite Nat2Z.id, nth_error_app2, Nat.sub_diag by lia. simpl.
      f_equal.
      specialize (IH (pre ++ [k]) t).
      rewrite <- app_assoc in IH. simpl in IH.
      rewrite length_app in IH. simpl in IH.
      replace (Z.of_nat (List.length pre + 1)) with (Z.of_nat (List.length pre) + 1)%Z
        in IH by lia.
      exact IH.
    + replace (Z.to_nat (t - Z.of_nat (List.length pre))) with 0%nat by lia.
      reflexivity.
Qed.

Lemma keyLoop_firstn :
  forall fields ks t,
    keyLoop fields ks (Int t) = firstn (Z.to_nat t) (map (propertyEntry fields) ks).
Proof.
  intros fields ks t. unfold keyLoop.
  pose proof (keyLoop_firstn_from fields ks [] t) as H. simpl in H.
  rewrite Z.sub_0_r in H. exact H.
Qed.

Lemma indicesBelow_none :
  forall i len toShow,
    num_lt (Int i) toShow = false -> indicesBelow i len toShow = [].
Proof.
  intros i [|len] toShow H; cbn [indicesBelow]; [reflexivity | now rewrite H].
Qed.

Lemma indexedFrom_length :
  forall items i, List.length (indexedFrom i items) = List.length items.
Proof.
  induction items as [|x items IH]; intros i; simpl; [reflexivity |].
  now rewrite IH.
Qed.

(** What [Math.min(size, M)] and the test [toShow < size] come to for a
    limit. *)
Lemma clamp_limit :
  forall (S : nat) (M : number),
    isLimit M ->
    exists t,
      Math_min (Int (Z.of_nat S)) M = Int t
      /\ Z.to_nat t = shownCount S M
      /\ num_lt (Int t) (Int (Z.of_nat S)) = num_lt M (Int (Z.of_nat S))
      /\ (num_lt M (Int (Z.of_nat S)) = true ->
          num_sub (Int (Z.of_nat S)) (Int t) = num_sub (Int (Z.of_nat S)) M).
Proof.
  intros S [| |m|] HM; simpl in HM; try contradiction.
  - exists (Z.min (Z.of_nat S) m). simpl. repeat split.
    + lia.
    + destruct (Z.ltb_spec (Z.min (Z.of_nat S) m) (Z.of_nat S)),
        (Z.ltb_spec m (Z.of_nat S)); try reflexivity; lia.
    + intros H. apply Z.ltb_lt in H. f_equal. lia.
  - exists (Z.of_nat S). simpl. repeat split.
    + lia.
    + apply Z.ltb_irrefl.
    + discriminate.
Qed.

(** ** The handler chain *)

(** Which handler of the chain answers for each kind of value. *)
Lemma renderValue_dispatch :
  forall chalk v opts,
    renderValue chalk v opts
    = firstMatch
        (match v with
         | VNull | VUndefined | VBoolean _ | VNumber _ | VBigInt _ | VSymbol _ =>
             handlePrimitive chalk v opts
         | VString _ => handleString chalk v opts
         | VDate _ => handleDate chalk v opts
         | VRegExp _ => handleRegExp chalk v opts
         | VArray _ => handleArray chalk v opts
         | VSet _ => handleSet chalk v opts
         | VMap _ => handleMap chalk v opts
         | VFunction _ _ =>
             if isClass v then handleClass chalk v opts
             else handleFunction chalk v opts
         | VInstance _ _ => handleInstance chalk v opts
         | VObject _ => handleObject chalk v opts
         end).
Proof.
  intros chalk v opts.
  destruct v as [ | | b | n | z | sd | s | d | text | items | items | entries
                | name source | ctor fields | fields ]; try reflexivity.
  unfold renderValue, handlers, firstResult, handlePrimitive, handleString,
    handleDate, handleRegExp, handleArray, handleSet, handleMap,
    handleFunction, handleClass.
  destruct (isClass (VFunction name source)); reflexivity.
Qed.

(** ** Clamping *)

(** C4. For a container (array, set, map, plain object, class instance) of
    true size [S] whose limit [M] ([maxItems] or [maxKeys]) is a
    non-negative integer or unbounded, the classifier returns a node whose
    children are the first [min(S, M)] entries of the container, in order,
    followed by one truncation marker carrying [S - M] when [M < S] and by
    nothing otherwise. *)
Theorem container_children_clamped :
  forall chalk opts v all M,
    containerEntries v opts = Some (all, M) ->
    isLimit M ->
    let S := List.length all in
    S = containerSize v
    /\ List.length (firstn (shownCount S M) all) = shownCount S M
    /\ Z.of_nat (shownCount S M)
       = match M with Int m => Z.min (Z.of_nat S) m | _ => Z.of_nat S end
    /\ exists h,
         renderValue chalk v opts
         = Ok {| header := h;
                 children :=
                   Some (firstn (shownCount S M) all
                         ++ (if num_lt M (Int (Z.of_nat S))
                             then [truncationEntry (num_sub (Int (Z.of_nat S)) M)]
                             else [])) |}.
Proof.
  intros chalk opts v all M Hent HM S.
  assert (Hcount : List.length (firstn (shownCount S M) all) = shownCount S M).
  { rewrite length_firstn. subst S.
    destruct M; simpl in *; try contradiction; lia. }
  assert (HcountZ : Z.of_nat (shownCount S M)
                    = match M with
                      | Int m => Z.min (Z.of_nat S) m
                      | _ => Z.of_nat S
                      end).
  { destruct M; simpl in *; try contradiction; lia. }
  destruct (clamp_limit S M HM) as (t & Ht & Hn & Hlt & Hsub).
  assert (Hmarker :
            (if num_lt (Int t) (Int (Z.of_nat S))
             then [truncationEntry (num_sub (Int (Z.of_nat S)) (Int t))]
             else [])
            = (if num_lt M (Int (Z.of_nat S))
               then [truncationEntry (num_sub (Int (Z.of_nat S)) M)]
               else [])).
  { rewrite Hlt. destruct (num_lt M (Int (Z.of_nat S))) eqn:E; [| reflexivity].
    now rewrite (Hsub eq_refl). }
  destruct v as [ | | b | n | z | sd | s | d | text | items | items | entries
                | name source | ctor fields | fields ];
    simpl in Hent; try discriminate;
    injection Hent as Hall HMeq; rewrite renderValue_dispatch.
  - (* array *)
    assert (HS : S = List.length items)
      by (subst S all; apply indexedFrom_length).
    repeat split; [exact HS | exact Hcount | exact HcountZ |].
    eexists. unfold handleArray, firstMatch. rewrite HMeq, <- HS, Ht.
    pose proof (arrayLoop_firstn items [] t) as Hloop. simpl in Hloop.
    rewrite <- HS in Hloop. rewrite Hloop, Z.sub_0_r, Hn, Hall, Hmarker.
    reflexivity.
  - (* set *)
    assert (HS : S = List.length items)
      by (subst S all; apply indexedFrom_length).
    repeat split; [exact HS | exact Hcount | exact HcountZ |].
    eexists. unfold handleSet, firstMatch. rewrite HMeq, <- HS, Ht.
    rewrite setLoop_firstn, Z.sub_0_r, Hn, Hall, Hmarker. reflexivity.
  - (* map *)
    assert (HS : S = List.length entries)
      by (subst S all; apply length_map).
    repeat split; [exact HS | exact Hcount | exact HcountZ |].
    eexists. unfold handleMap, firstMatch. rewrite HMeq, <- HS, Ht.
    rewrite mapLoop_firstn, Z.sub_0_r, Hn, Hall, Hmarker. reflexivity.
  - (* instance *)
    assert (HS : S = List.length fields)
      by (subst S all; unfold Object_keys; now rewrite !length_map).
    repeat split; [exact HS | exact Hcount | exact HcountZ |].
    eexists. unfold handleInstance, firstMatch.
    replace (List.length (Object_keys fields)) with S
      by (rewrite HS; unfold Object_keys; now rewrite length_map).
    rewrite HMeq, Ht, keyLoop_firstn, Hn, Hall, Hmarker. reflexivity.
  - (* plain object *)
    assert (HS : S = List.length fields).
    { subst S all. rewrite length_map.
      destruct (sortKeys (o_object opts)); [rewrite sort_length |];
        unfold Object_keys; now rewrite length_map. }
    repeat split; [exact HS | exact Hcount | exact HcountZ |].
    eexists. unfold handleObject, firstMatch.
    replace (List.length
               (if sortKeys (o_object opts) then sort (Object_keys fields)
                else Object_keys fields)) with S.
    2:{ rewrite HS. destruct (sortKeys (o_object opts)); [rewrite sort_length |];
          unfold Object_keys; now rewrite length_map. }
    rewrite HMeq, Ht, keyLoop_firstn, Hn, Hall, Hmarker. reflexivity.
Qed.

Lemma container_children_clamped_witness :
  containerEntries sample_seven (opts (treeWithMaxItems (Int 3)))
  = Some (indexedFrom 0 (map (fun z => VNumber (Int z))
                             [10; 11; 12; 13; 14; 15; 16]%Z), Int 3)
  /\ isLimit (Int 3)
  /\ exists h,
       renderValue plainChalk sample_seven (opts (treeWithMaxItems (Int 3)))
       = Ok {| header := h;
               children :=
                 Some [ {| key := str "0"; child_value := VNumber (Int 10);
                           divider := None |};
                        {| key := str "1"; child_value := VNumber (Int 11);
                           divider := None |};
                        {| key := str "2"; child_value := VNumber (Int 12);
                           divider := None |};
                        {| key := str "…"; child_value := VString (str "+4 more");
                           divider := None |} ] |}.
Proof.
  split; [reflexivity |]. split; [simpl; lia |].
  destruct (container_children_clamped plainChalk
              (opts (treeWithMaxItems (Int 3))) sample_seven
              (all := indexedFrom 0 (map (fun z => VNumber (Int z))
                                         [10; 11; 12; 13; 14; 15; 16]%Z))
              (M := Int 3)) as (_ & _ & _ & H);
    [reflexivity | simpl; lia | exact H].
Defined.

(** Scenario B: seven elements under [maxItems] 3. *)
Example render_scenario_B :
  render plainChalk (treeWithMaxItems (Int 3)) sample_seven
  = Ok [str "├─ 0: 10"; str "├─ 1: 11"; str "├─ 2: 12"; str "└─ …: +4 more"].
Proof. vm_compute. reflexivity. Qed.

(** Scenario C: an empty plain object under [showRoot]. *)
Example render_scenario_C :
  render plainChalk treeWithShowRoot (VObject []) = Ok [str "Object{}"].
Proof. vm_compute. reflexivity. Qed.

(** Scenario D: a map entry under the default divider. *)
Example render_scenario_D :
  render plainChalk defaultTree (VMap [(str "x", VNumber (Int 1))])
  = Ok [str "└─ x → 1"].
Proof. vm_compute. reflexivity. Qed.

(** Nested containers: continuation pipes under a node with later siblings,
    blanks under the last one; with colours, connectors and headers are
    painted and keys are not. *)
Example render_nested :
  render plainChalk defaultTree
    (VObject [(str "a", VArray [VNumber (Int 1); VObject [(str "k", VNull)]]);
              (str "z", VSet [VBoolean true])])
  = Ok [str "├─ a: Array(2)";
        str "│  ├─ 0: 1";
        str "│  └─ 1: Object{}";
        str "│     └─ k: null";
        str "└─ z: Set(1)";
        str "   └─ 0: true"]
  /\ render markChalk defaultTree sample_ab
     = Ok [str "[├─] a: [1]"; str "[└─] b: [2]"].
Proof. split; vm_compute; reflexivity. Qed.

(** ** Key order *)

(** C7. The children of a plain object are its first [min(S, maxKeys)]
    keys, taken from the keys sorted in ascending code unit order when
    [sortKeys] is enabled (each shown key is then below or equal to every
    later one, and the sorted keys are a rearrangement of the object's
    keys), and from the keys in their enumeration order when it is
    disabled. *)
Theorem handleObject_key_order :
  forall chalk opts fields,
    let keys := Object_keys fields in
    let n := shownCount (List.length keys) (maxKeys (o_object opts)) in
    exists shown marker,
      renderValue chalk (VObject fields) opts
      = Ok {| header := colorize chalk (str "Object{}") (c_object (colors opts));
              children := Some (map (propertyEntry fields) shown ++ marker) |}
      /\ (marker = [] \/ exists r, marker = [truncationEntry r])
      /\ if sortKeys (o_object opts)
         then shown = firstn n (sort keys)
              /\ StronglySorted str_le shown
              /\ Permutation (sort keys) keys
         else shown = firstn n keys.
Proof.
  intros chalk opts fields keys n.
  set (ks := if sortKeys (o_object opts) then sort keys else keys).
  assert (Hlen : List.length ks = List.length keys).
  { subst ks. destruct (sortKeys (o_object opts)); [apply sort_length | reflexivity]. }
  exists (firstn n ks).
  assert (Horder :
            if sortKeys (o_object opts)
            then firstn n ks = firstn n (sort keys)
                 /\ StronglySorted str_le (firstn n ks)
                 /\ Permutation (sort keys) keys
            else firstn n ks = firstn n keys).
  { subst ks. destruct (sortKeys (o_object opts)); [| reflexivity].
    repeat split.
    - apply StronglySorted_firstn, sort_sorted.
    - apply sort_perm. }
  rewrite renderValue_dispatch. unfold handleObject, firstMatch.
  fold keys. fold ks. rewrite Hlen. subst n.
  destruct (maxKeys (o_object opts)) as [| |m|]; cbn [Math_min shownCount].
  - (* NaN *)
    exists []. unfold keyLoop. rewrite indicesBelow_none by reflexivity.
    split; [reflexivity | split; [left; reflexivity | exact Horder]].
  - (* -Infinity *)
    eexists. unfold keyLoop. rewrite indicesBelow_none by reflexivity.
    split; [reflexivity | split; [right; eexists; reflexivity | exact Horder]].
  - (* an integer *)
    eexists. rewrite keyLoop_firstn, firstn_map.
    replace (Z.to_nat (Z.min (Z.of_nat (List.length keys)) m))
      with (Nat.min (List.length keys) (Z.to_nat m)) by lia.
    split; [reflexivity | split; [| exact Horder]].
    destruct (num_lt _ _); [right; eexists; reflexivity | left; reflexivity].
  - (* unbounded *)
    exists []. rewrite keyLoop_firstn, firstn_map, Nat2Z.id.
    split; [| split; [left; reflexivity | exact Horder]].
    cbn [num_lt]. rewrite Z.ltb_irrefl. reflexivity.
Qed.

(** The same object under the two settings of [sortKeys]. *)
Example render_sorted_and_unsorted :
  render plainChalk (treeWithObject PosInfinity true) sample_fruit
  = Ok [str "├─ apple: 2"; str "├─ fig: 3"; str "└─ pear: 1"]
  /\ render plainChalk (treeWithObject PosInfinity false) sample_fruit
     = Ok [str "├─ pear: 1"; str "├─ apple: 2"; str "└─ fig: 3"]
  /\ render plainChalk (treeWithObject (Int 2) true) sample_fruit
     = Ok [str "├─ apple: 2"; str "├─ fig: 3"; str "└─ …: +1 more"].
Proof. repeat split; vm_compute; reflexivity. Qed.

(** ** String truncation *)

(** C5, as stated, fails for [maxLength] 0: [slice(0, -1)] drops only the
    last character, so ["abc"] becomes ["ab…"], two source characters and
    the ellipsis, where the specification gives the ellipsis alone. *)
Lemma truncate_maxLength_zero :
  truncate (str "abc") (Int 0) = str "ab…"
  /\ spec_truncate (str "abc") 0 = str "…"
  /\ handleString plainChalk (VString (str "abc"))
       (opts (treeWithMaxLength (Int 0)))
     = Ok (Some {| header := dq ++ str "ab…" ++ dq; children := None |})
  /\ ~ (forall s m, truncate s (Int m) = spec_truncate s m).
Proof.
  repeat split; try (vm_compute; reflexivity).
  intros H. specialize (H (str "abc") 0%Z). vm_compute in H. discriminate.
Qed.

(** C5, amended. For a [maxLength] of at least 1 (or unbounded): a string
    of length [L > maxLength] is rendered as its first [maxLength - 1]
    characters followed by one ellipsis character, a string of length
    [L <= maxLength] is unchanged, and the result is wrapped as [quotes]
    says: not at all, in single quotes, or in double quotes. *)
Theorem handleString_truncates_then_quotes :
  forall chalk opts s,
    atLeast 1 (maxLength (o_string opts)) ->
    let L := Z.of_nat (List.length s) in
    let body :=
      match maxLength (o_string opts) with
      | Int m =>
          if (m <? L)%Z then firstn (Z.to_nat (m - 1)) s ++ str "…" else s
      | _ => s
      end in
    handleString chalk (VString s) opts
    = Ok (Some {| header :=
                    colorize chalk
                      (match quotes (o_string opts) with
                       | QNone => body
                       | QSingle => str "'" ++ body ++ str "'"
                       | QDouble => dq ++ body ++ dq
                       end)
                      (c_string (colors opts));
                  children := None |})
    /\ match maxLength (o_string opts) with
       | Int m =>
           if (m <? L)%Z
           then Z.of_nat (List.length (firstn (Z.to_nat (m - 1)) s)) = (m - 1)%Z
                /\ Z.of_nat (List.length body) = m
           else body = s
       | _ => body = s
       end.
Proof.
  intros chalk opts s Hmax L body.
  assert (Hbody : truncate s (maxLength (o_string opts)) = body).
  { subst body. unfold truncate.
    destruct (maxLength (o_string opts)) as [| |m|]; simpl in Hmax;
      try contradiction; cbn [num_gt num_lt num_sub]; fold L.
    - destruct (Z.ltb_spec m L) as [Hlt | Hge]; [| reflexivity].
      unfold slice0. fold L.
      destruct (Z.ltb_spec (m - 1) 0) as [Hneg | _]; [lia |].
      now replace (Z.min (m - 1) L) with (m - 1)%Z by lia.
    - reflexivity. }
  split.
  - unfold handleString, leaf. rewrite Hbody.
    destruct (quotes (o_string opts)); reflexivity.
  - subst body.
    destruct (maxLength (o_string opts)) as [| |m|]; simpl in Hmax;
      try contradiction; [| reflexivity].
    destruct (Z.ltb_spec m L) as [Hlt | Hge]; [| reflexivity].
    rewrite length_app, length_firstn. subst L. simpl. lia.
Qed.

Lemma handleString_truncates_then_quotes_witness :
  atLeast 1 (maxLength (o_string (opts (treeWithMaxLength (Int 3)))))
  /\ handleString plainChalk (VString (str "abcdef"))
       (opts (treeWithMaxLength (Int 3)))
     = Ok (Some {| header := dq ++ str "ab…" ++ dq; children := None |}).
Proof.
  split; [simpl; lia |].
  destruct (handleString_truncates_then_quotes plainChalk
              (opts (treeWithMaxLength (Int 3))) (str "abcdef")) as [H _];
    [simpl; lia | exact H].
Defined.

(** ** The children of a node are below the value *)

Lemma height_in_list :
  forall (x : value) items,
    In x items -> height x <= list_max (map height items).
Proof.
  intros x items Hin.
  assert (H : Forall (fun k => k <= list_max (map height items)) (map height items))
    by (apply list_max_le; lia).
  rewrite Forall_forall in H. apply H. now apply in_map.
Qed.

Lemma height_in_pairs :
  forall (A : Type) (x : value) (k : A) (pairs : list (A * value)),
    In (k, x) pairs ->
    height x <= list_max (map (fun kv => height (snd kv)) pairs).
Proof.
  intros A x k pairs Hin.
  assert (H : Forall (fun n => n <= list_max (map (fun kv => height (snd kv)) pairs))
                     (map (fun kv => height (snd kv)) pairs))
    by (apply list_max_le; lia).
  rewrite Forall_forall in H. apply H.
  change (height x) with ((fun kv : A * value => height (snd kv)) (k, x)).
  now apply in_map.
Qed.

Lemma getIndex_height :
  forall items i, height (getIndex items i) <= list_max (map height items).
Proof.
  intros items i. unfold getIndex.
  destruct (i <? 0)%Z; [simpl; lia |].
  destruct (nth_in_or_default (Z.to_nat i) items VUndefined) as [Hin | Hd].
  - now apply height_in_list.
  - rewrite Hd. simpl. lia.
Qed.

Lemma getProperty_height :
  forall fields k,
    height (getProperty fields k)
    <= list_max (map (fun kv => height (snd kv)) fields).
Proof.
  induction fields as [|[k' v] fields IH]; intros k; simpl; [lia |].
  destruct (list_eq_dec N.eq_dec k' k); [lia |].
  specialize (IH k). lia.
Qed.

Lemma setLoop_below :
  forall bound items i toShow,
    Forall (fun x => height x <= bound) items ->
    Forall (fun c => height (child_value c) <= bound) (setLoop items i toShow).
Proof.
  induction items as [|x items IH]; intros i toShow Hall; cbn [setLoop];
    [constructor |].
  inversion Hall; subst.
  destruct (num_ge (Int i) toShow); constructor; [assumption | now apply IH].
Qed.

Lemma mapLoop_below :
  forall bound dv entries i toShow,
    Forall (fun kv => height (snd kv) <= bound) entries ->
    Forall (fun c => height (child_value c) <= bound) (mapLoop entries i toShow dv).
Proof.
  induction entries as [|[k v] entries IH]; intros i toShow Hall; cbn [mapLoop];
    [constructor |].
  inversion Hall; subst.
  destruct (num_ge (Int i) toShow); constructor; [assumption | now apply IH].
Qed.

Lemma keyLoop_below :
  forall fields keys toShow,
    Forall (fun c => height (child_value c)
                     <= list_max (map (fun kv => height (snd kv)) fields))
           (keyLoop fields keys toShow).
Proof.
  intros fields keys toShow. unfold keyLoop.
  rewrite Forall_forall. intros c Hin.
  apply in_flat_map in Hin. destruct Hin as (i & _ & Hc).
  destruct (nth_error keys (Z.to_nat i)); [| contradiction].
  destruct Hc as [<- | []]. simpl. apply getProperty_height.
Qed.

Lemma marker_below :
  forall bound (b : bool) r,
    Forall (fun c => height (child_value c) <= bound)
           (if b then [truncationEntry r] else []).
Proof.
  intros bound [|] r; repeat constructor. simpl. lia.
Qed.

Lemma Forall_all_in :
  forall (A : Type) (P : A -> Prop) (l : list A),
    (forall x, In x l -> P x) -> Forall P l.
Proof. intros A P l H. now apply Forall_forall. Qed.

(** Every child of the node of [v] is a value nested in [v], or a marker. *)
Lemma children_below :
  forall chalk v opts node cs,
    renderValue chalk v opts = Ok node ->
    children node = Some cs ->
    Forall (fun c => height (child_value c) < height v) cs.
Proof.
  intros chalk v opts node cs Hnode Hcs.
  rewrite renderValue_dispatch in Hnode.
  assert (Hle : forall bound,
             Forall (fun c => height (child_value c) <= bound) cs ->
             height v = S bound ->
             Forall (fun c => height (child_value c) < height v) cs).
  { intros bound H Hv. rewrite Hv. eapply Forall_impl; [| exact H].
    simpl. intros; lia. }
  destruct v as [ | | b | n | z | sd | s | d | text | items | items | entries
                | name source | ctor fields | fields ];
    try (simpl in Hnode; injection Hnode as <-; discriminate).
  - (* date *)
    unfold handleDate in Hnode.
    destruct (format (o_date opts)); try destruct d; simpl in Hnode;
      try discriminate; injection Hnode as <-; discriminate.
  - (* array *)
    simpl in Hnode. injection Hnode as <-. simpl in Hcs. injection Hcs as <-.
    eapply Hle; [| reflexivity].
    apply Forall_app. split; [| apply marker_below].
    apply Forall_all_in. intros c Hin. apply in_map_iff in Hin.
    destruct Hin as (i & <- & _). simpl. apply getIndex_height.
  - (* set *)
    simpl in Hnode. injection Hnode as <-. simpl in Hcs. injection Hcs as <-.
    eapply Hle; [| reflexivity].
    apply Forall_app. split; [| apply marker_below].
    apply setLoop_below. apply Forall_all_in. intros x Hx.
    now apply height_in_list.
  - (* map *)
    simpl in Hnode. injection Hnode as <-. simpl in Hcs. injection Hcs as <-.
    eapply Hle; [| reflexivity].
    apply Forall_app. split; [| apply marker_below].
    apply mapLoop_below. apply Forall_all_in. intros [k x] Hx.
    eapply height_in_pairs; eassumption.
  - (* function or class *)
    unfold handleClass, handleFunction in Hnode.
    destruct (isClass (VFunction name source)); simpl in Hnode;
      injection Hnode as <-; discriminate.
  - (* instance *)
    simpl in Hnode. injection Hnode as <-. simpl in Hcs. injection Hcs as <-.
    eapply Hle; [| reflexivity].
    apply Forall_app. split; [apply keyLoop_below | apply marker_below].
  - (* plain object *)
    simpl in Hnode. injection Hnode as <-. simpl in Hcs. injection Hcs as <-.
    eapply Hle; [| reflexivity].
    apply Forall_app. split; [apply keyLoop_below | apply marker_below].
Qed.

(** ** The walker: what is pushed does not depend on what the array holds *)

Lemma prepend_prepend :
  forall a b r, prepend a (prepend b r) = prepend (a ++ b) r.
Proof. intros a b [extra| |]; simpl; [now rewrite app_assoc | |]; reflexivity. Qed.

Lemma prepend_nil : forall r, prepend [] r = r.
Proof. intros [extra| |]; reflexivity. Qed.

Section WalkerFacts.

Variable chalk : Chalk.
Variable this : ObjectTree.

Lemma walkChildren_frame :
  forall (w : Walk) cs,
    Forall (fun c => framed w (child_value c)) cs ->
    forall i last lines levels depth,
      walkChildren w cs i last lines levels depth
      = prepend lines (walkChildren w cs i last [] levels depth).
Proof.
  intros w cs Hall. induction Hall as [|c cs Hc _ IH]; intros i last lines levels depth.
  - simpl. now rewrite app_nil_r.
  - cbn [walkChildren]. rewrite (Hc lines).
    destruct (w (child_value c) [] levels (depth + 1)%Z (Some (key c))
                (Some (i =? last)%Z) (orDefault (divider c) (str ": ")))
      as [extra| |]; cbn [prepend]; try reflexivity.
    rewrite (IH _ _ (lines ++ extra)), (IH _ _ extra).
    now rewrite prepend_prepend.
Qed.

Lemma walkBody_frame :
  forall (w : Walk) v,
    (forall x, height x < height v -> framed w x) ->
    framed (walkBody chalk this w) v.
Proof.
  intros w v Hw lines levels depth k l dv. unfold walkBody.
  destruct (num_gt (Int depth) (maxDepth (opts this)));
    [simpl; now rewrite app_nil_r |].
  destruct (looksLikeTruncation v); [reflexivity |].
  destruct (renderValue chalk v (opts this)) as [node| |] eqn:Hnode;
    try reflexivity.
  cbv zeta.
  destruct (children node) as [[|c cs]|] eqn:Hcs.
  1, 3: destruct k; [reflexivity |];
        destruct (showRoot (opts this) || (depth >? 0)%Z);
        [reflexivity | simpl; now rewrite app_nil_r].
  assert (Hall : Forall (fun c => framed w (child_value c)) (c :: cs)).
  { eapply Forall_impl; [| eapply children_below; eassumption].
    intros c0 Hc0. now apply Hw. }
  etransitivity; [apply (walkChildren_frame Hall) |].
  symmetry.
  etransitivity; [apply f_equal; apply (walkChildren_frame Hall) |].
  rewrite prepend_prepend.
  destruct k; [reflexivity |].
  destruct (showRoot (opts this) || (depth >? 0)%Z);
    [reflexivity | simpl; now rewrite app_nil_r].
Qed.

Lemma walk_frame :
  forall fuel v, framed (walk chalk this fuel) v.
Proof.
  induction fuel as [|fuel IH]; intros v.
  - intros lines levels depth k l dv. reflexivity.
  - cbn [walk]. apply walkBody_frame. intros x _. apply IH.
Qed.

(** ** The walker: the recursion budget *)

Lemma walkChildren_ext :
  forall (w1 w2 : Walk) cs,
    Forall (fun c => forall lines levels depth k l dv,
                w1 (child_value c) lines levels depth k l dv
                = w2 (child_value c) lines levels depth k l dv) cs ->
    forall i last lines levels depth,
      walkChildren w1 cs i last lines levels depth
      = walkChildren w2 cs i last lines levels depth.
Proof.
  intros w1 w2 cs Hall.
  induction Hall as [|c cs Hc _ IH]; intros i last lines levels depth;
    [reflexivity |].
  cbn [walkChildren]. rewrite Hc.
  destruct (w2 (child_value c) lines levels (depth + 1)%Z (Some (key c))
              (Some (i =? last)%Z) (orDefault (divider c) (str ": ")));
    [apply IH | reflexivity | reflexivity].
Qed.

Lemma walkBody_ext :
  forall (w1 w2 : Walk) v,
    (forall x, height x < height v ->
               forall lines levels depth k l dv,
                 w1 x lines levels depth k l dv = w2 x lines levels depth k l dv) ->
    forall lines levels depth k l dv,
      walkBody chalk this w1 v lines levels depth k l dv
      = walkBody chalk this w2 v lines levels depth k l dv.
Proof.
  intros w1 w2 v Hw lines levels depth k l dv. unfold walkBody.
  destruct (num_gt (Int depth) (maxDepth (opts this))); [reflexivity |].
  destruct (looksLikeTruncation v); [reflexivity |].
  destruct (renderValue chalk v (opts this)) as [node| |] eqn:Hnode;
    try reflexivity.
  destruct (children node) as [[|c cs]|] eqn:Hcs; try reflexivity.
  apply walkChildren_ext.
  eapply Forall_impl; [| eapply children_below; eassumption].
  intros c0 Hc0. now apply Hw.
Qed.

(** Any budget above the nesting depth gives the same outcome. *)
Lemma walk_fuel_irrelevant :
  forall fuel fuel' v,
    height v < fuel -> fuel <= fuel' ->
    forall lines levels depth k l dv,
      walk chalk this fuel' v lines levels depth k l dv
      = walk chalk this fuel v lines levels depth k l dv.
Proof.
  induction fuel as [|fuel IH]; intros fuel' v Hv Hle; [lia |].
  destruct fuel' as [|fuel']; [lia |].
  cbn [walk]. apply walkBody_ext. intros x Hx. apply IH; lia.
Qed.

Lemma renderValue_not_OutOfFuel :
  forall v o, renderValue chalk v o <> OutOfFuel.
Proof.
  intros v o. rewrite renderValue_dispatch.
  destruct v as [ | | b | n | z | sd | s | d | text | items | items | entries
                | name source | ctor fields | fields ];
    try (simpl; discriminate).
  - unfold handleDate. destruct (format (o_date o)); try destruct d;
      simpl; discriminate.
  - unfold handleClass, handleFunction.
    destruct (isClass (VFunction name source)); simpl; discriminate.
Qed.

Lemma walkChildren_not_OutOfFuel :
  forall (w : Walk) cs,
    Forall (fun c => forall lines levels depth k l dv,
                w (child_value c) lines levels depth k l dv <> OutOfFuel) cs ->
    forall i last lines levels depth,
      walkChildren w cs i last lines levels depth <> OutOfFuel.
Proof.
  intros w cs Hall.
  induction Hall as [|c cs Hc _ IH]; intros i last lines levels depth;
    [discriminate |].
  cbn [walkChildren].
  destruct (w (child_value c) lines levels (depth + 1)%Z (Some (key c))
              (Some (i =? last)%Z) (orDefault (divider c) (str ": ")))
    eqn:E; [apply IH | discriminate | now apply Hc in E].
Qed.

(** A budget above the nesting depth is never exhausted: the walk returns
    or throws. *)
Lemma walk_fuel_enough :
  forall fuel v,
    height v < fuel ->
    forall lines levels depth k l dv,
      walk chalk this fuel v lines levels depth k l dv <> OutOfFuel.
Proof.
  induction fuel as [|fuel IH]; intros v Hv lines levels depth k l dv; [lia |].
  cbn [walk]. unfold walkBody.
  destruct (num_gt (Int depth) (maxDepth (opts this))); [discriminate |].
  destruct (looksLikeTruncation v); [discriminate |].
  destruct (renderValue chalk v (opts this)) as [node| |] eqn:Hnode;
    [| discriminate | now apply renderValue_not_OutOfFuel in Hnode].
  destruct (children node) as [[|c cs]|] eqn:Hcs; try discriminate.
  apply walkChildren_not_OutOfFuel.
  eapply Forall_impl; [| eapply children_below; eassumption].
  intros c0 Hc0. intros. apply IH. simpl in Hc0. lia.
Qed.

(** [render] returns or throws. *)
Lemma render_not_OutOfFuel :
  forall root, render chalk this root <> OutOfFuel.
Proof. intros root. unfold render. apply walk_fuel_enough. lia. Qed.

End WalkerFacts.

(** ** The walker: lines of the children *)

Section WalkerLines.

Variable chalk : Chalk.
Variable this : ObjectTree.

Lemma walk_extends :
  forall fuel v lines levels depth k l dv out,
    walk chalk this fuel v lines levels depth k l dv = Ok out ->
    exists extra,
      out = lines ++ extra
      /\ walk chalk this fuel v [] levels depth k l dv = Ok extra.
Proof.
  intros fuel v lines levels depth k l dv out H.
  rewrite (walk_frame chalk this fuel v lines) in H.
  destruct (walk chalk this fuel v [] levels depth k l dv) as [extra| |];
    simpl in H; try discriminate.
  injection H as <-. now exists extra.
Qed.

Lemma walkChildren_extends :
  forall fuel cs i last lines levels depth out,
    walkChildren (walk chalk this fuel) cs i last lines levels depth = Ok out ->
    exists extra, out = lines ++ extra.
Proof.
  intros fuel cs i last lines levels depth out H.
  rewrite walkChildren_frame in H.
  - destruct (walkChildren (walk chalk this fuel) cs i last [] levels depth)
      as [extra| |]; simpl in H; try discriminate.
    injection H as <-. now exists extra.
  - apply Forall_all_in. intros c _. apply walk_frame.
Qed.

(** A node within the depth limit that has a key pushes its own line
    first. *)
Lemma walk_keyed_line :
  forall fuel v lines levels depth k l dv out,
    num_gt (Int depth) (maxDepth (opts this)) = false ->
    walk chalk this (S fuel) v lines levels depth (Some k) l dv = Ok out ->
    exists text rest,
      out = lines ++ (buildPrefix chalk this levels l ++ k ++ dv ++ text) :: rest.
Proof.
  intros fuel v lines levels depth k l dv out Hdepth H.
  cbn [walk] in H. unfold walkBody in H. rewrite Hdepth in H.
  destruct (looksLikeTruncation v).
  - injection H as <-. eexists. exists []. rewrite <- (app_assoc k dv).
    reflexivity.
  - destruct (renderValue chalk v (opts this)) as [node| |]; try discriminate.
    cbv zeta in H.
    destruct (children node) as [[|c cs]|].
    + injection H as <-. exists (header node), []. reflexivity.
    + apply walkChildren_extends in H. destruct H as (extra & ->).
      exists (header node), extra. rewrite <- app_assoc. reflexivity.
    + injection H as <-. exists (header node), []. reflexivity.
Qed.

(** A node beyond the depth limit pushes nothing. *)
Lemma walk_beyond_maxDepth :
  forall fuel v lines levels depth k l dv,
    num_gt (Int depth) (maxDepth (opts this)) = true ->
    walk chalk this (S fuel) v lines levels depth k l dv = Ok lines.
Proof.
  intros fuel v lines levels depth k l dv Hdepth.
  cbn [walk]. unfold walkBody. now rewrite Hdepth.
Qed.

Lemma walkChildren_beyond_maxDepth :
  forall fuel cs i last lines levels depth,
    num_gt (Int (depth + 1)) (maxDepth (opts this)) = true ->
    walkChildren (walk chalk this (S fuel)) cs i last lines levels depth
    = Ok lines.
Proof.
  intros fuel cs. induction cs as [|c cs IH]; intros i last lines levels depth H;
    [reflexivity |].
  cbn [walkChildren]. rewrite walk_beyond_maxDepth by assumption. now apply IH.
Qed.

Lemma walkChildren_lines :
  forall fuel cs i last lines levels depth out,
    num_gt (Int (depth + 1)) (maxDepth (opts this)) = false ->
    walkChildren (walk chalk this fuel) cs i last lines levels depth = Ok out ->
    exists extra,
      out = lines ++ extra
      /\ List.length cs <= List.length extra
      /\ Forall (fun c =>
                   exists l text,
                     In (buildPrefix chalk this levels (Some l) ++ key c
                         ++ orDefault (divider c) (str ": ") ++ text) extra) cs.
Proof.
  intros fuel cs. induction cs as [|c cs IH];
    intros i last lines levels depth out Hdepth H.
  - injection H as <-. exists []. rewrite app_nil_r. repeat split; auto.
  - cbn [walkChildren] in H.
    destruct (walk chalk this fuel (child_value c) lines levels (depth + 1)%Z
                (Some (key c)) (Some (i =? last)%Z)
                (orDefault (divider c) (str ": "))) as [lines'| |] eqn:Hc;
      try discriminate.
    destruct fuel as [|fuel]; [discriminate |].
    apply walk_keyed_line in Hc; [| assumption].
    destruct Hc as (text & rest & ->).
    apply IH in H; [| assumption].
    destruct H as (extra & -> & Hlen & Hall).
    exists ((buildPrefix chalk this levels (Some (i =? last)%Z) ++ key c
             ++ orDefault (divider c) (str ": ") ++ text) :: rest ++ extra).
    split; [now rewrite <- !app_assoc |].
    split; [simpl; rewrite length_app; unfold jsstring in *; lia |].
    constructor.
    + exists (i =? last)%Z, text. now left.
    + eapply Forall_impl; [| exact Hall].
      intros c0 (l0 & text0 & Hin). exists l0, text0.
      right. apply in_or_app. now right.
Qed.

Lemma includes_app_r :
  forall needle p s, includes needle s = true -> includes needle (p ++ s) = true.
Proof.
  intros needle p s H. induction p as [|x p IH]; [exact H |].
  simpl. rewrite IH. apply orb_true_r.
Qed.

(** The value of every marker the handlers append passes the test of the
    truncation branch. *)
Lemma truncationEntry_looksLikeTruncation :
  forall r, looksLikeTruncation (child_value (truncationEntry r)) = true.
Proof.
  intros r. unfold truncationEntry, looksLikeTruncation. cbn [child_value].
  apply andb_true_intro. split; [reflexivity |].
  change (str "+" ++ Number_toString r ++ str " more")
    with ((str "+" ++ Number_toString r) ++ str " more").
  apply includes_app_r. reflexivity.
Qed.

(** Within the depth limit a value that passes the test pushes exactly one
    line, its text unquoted, and nothing is classified or walked below it. *)
Lemma walk_truncation_line :
  forall fuel s lines levels depth k l dv,
    looksLikeTruncation (VString s) = true ->
    num_gt (Int depth) (maxDepth (opts this)) = false ->
    walk chalk this (S fuel) (VString s) lines levels depth k l dv
    = Ok (lines
          ++ [buildPrefix chalk this levels l
              ++ match k with Some k0 => k0 ++ dv | None => [] end
              ++ (if (level chalk >? 0)%Z then paint chalk gray s else s)]).
Proof.
  intros fuel s lines levels depth k l dv Hmark Hdepth.
  cbn [walk]. unfold walkBody. now rewrite Hdepth, Hmark.
Qed.

(** Only a string passes the test of the truncation branch, and a string
    has no children. *)
Lemma looksLikeTruncation_no_children :
  forall v o node c cs,
    renderValue chalk v o = Ok node ->
    children node = Some (c :: cs) ->
    looksLikeTruncation v = false.
Proof.
  intros v o node c cs Hnode Hcs.
  destruct v; try reflexivity.
  rewrite renderValue_dispatch in Hnode. simpl in Hnode.
  injection Hnode as <-. discriminate.
Qed.

End WalkerLines.

(** ** Root handling and the depth limit *)

(** C2, as stated, fails: with [showRoot] false and [maxDepth] 0 the
    children of [{a: 1, b: 2}] are walked at depth 1 and omitted, and
    [render] returns no line. *)
Lemma render_maxDepth_zero_omits_children :
  render plainChalk (treeWithMaxDepth (Int 0)) sample_ab = Ok []
  /\ ~ spec_root_children_at_depth_zero.
Proof.
  split; [vm_compute; reflexivity |].
  intros H.
  specialize (H plainChalk (treeWithMaxDepth (Int 0)) sample_ab
                {| header := str "Object{}";
                   children := Some [propertyEntry [(str "a", VNumber (Int 1));
                                                    (str "b", VNumber (Int 2))] (str "a");
                                     propertyEntry [(str "a", VNumber (Int 1));
                                                    (str "b", VNumber (Int 2))] (str "b")] |}
                _ [] eq_refl eq_refl eq_refl eq_refl eq_refl).
  simpl in H. lia.
Qed.

(** C2, amended. The root is at depth 0 whether or not its line is shown,
    and its children are walked at depth 1. For a root with children and
    [showRoot] false: when the root is within the depth limit, [render] is
    the walk of the children at depth 0 + 1 from an empty array under an
    empty stack of levels (no line and no prefix level for the root); a
    node whose depth exceeds [maxDepth] pushes nothing, a keyed node whose
    depth does not pushes its own line first; so with [maxDepth] below 1,
    in particular 0, [render] returns no line, and with [maxDepth] at least
    1 every direct child of the root has its own line in the output. *)
Theorem walk_root_children_at_depth_one :
  forall chalk t root node c cs,
    showRoot (opts t) = false ->
    renderValue chalk root (opts t) = Ok node ->
    children node = Some (c :: cs) ->
    (num_gt (Int 0) (maxDepth (opts t)) = false ->
     render chalk t root
     = walkChildren (walk chalk t (height root)) (c :: cs) 0
         (Z.of_nat (List.length (c :: cs)) - 1) [] [] 0)
    /\ (forall fuel v lines levels depth k l dv,
          num_gt (Int depth) (maxDepth (opts t)) = true ->
          walk chalk t (S fuel) v lines levels depth k l dv = Ok lines)
    /\ (forall fuel v lines levels depth k l dv out,
          num_gt (Int depth) (maxDepth (opts t)) = false ->
          walk chalk t (S fuel) v lines levels depth (Some k) l dv = Ok out ->
          exists text rest,
            out = lines ++ (buildPrefix chalk t levels l ++ k ++ dv ++ text) :: rest)
    /\ (num_gt (Int 1) (maxDepth (opts t)) = true ->
        render chalk t root = Ok [])
    /\ (num_gt (Int 1) (maxDepth (opts t)) = false ->
        forall lines,
          render chalk t root = Ok lines ->
          List.length (c :: cs) <= List.length lines
          /\ Forall (fun child =>
                       exists l text,
                         In (buildPrefix chalk t [] (Some l) ++ key child
                             ++ orDefault (divider child) (str ": ") ++ text)
                            lines) (c :: cs)).
Proof.
  intros chalk t root node c cs Hshow Hnode Hcs.
  assert (Hroot : num_gt (Int 0) (maxDepth (opts t)) = false ->
                  render chalk t root
                  = walkChildren (walk chalk t (height root)) (c :: cs) 0
                      (Z.of_nat (List.length (c :: cs)) - 1) [] [] 0).
  { intros Hdepth. unfold render. cbn [walk]. unfold walkBody.
    rewrite Hdepth, (@looksLikeTruncation_no_children _ _ _ _ _ _ Hnode Hcs), Hnode.
    cbv zeta. rewrite Hcs, Hshow. reflexivity. }
  assert (Hheight : exists f, height root = S f).
  { pose proof (@children_below _ _ _ _ _ Hnode Hcs) as Hb.
    inversion Hb; subst. destruct (height root); [lia | eauto]. }
  split; [exact Hroot |].
  split; [intros; now apply walk_beyond_maxDepth |].
  split; [intros; eapply walk_keyed_line; eassumption |].
  split.
  - intros Hone.
    destruct (num_gt (Int 0) (maxDepth (opts t))) eqn:Hzero.
    + unfold render. now apply walk_beyond_maxDepth.
    + rewrite (Hroot eq_refl). destruct Hheight as (f & ->).
      now apply walkChildren_beyond_maxDepth.
  - intros Hone lines Hlines.
    assert (Hzero : num_gt (Int 0) (maxDepth (opts t)) = false).
    { unfold num_gt in *. destruct (maxDepth (opts t)); simpl in *;
        try reflexivity; try discriminate.
      apply Z.ltb_ge. apply Z.ltb_ge in Hone. lia. }
    rewrite (Hroot Hzero) in Hlines.
    apply walkChildren_lines in Hlines; [| exact Hone].
    destruct Hlines as (extra & -> & Hlen & Hall). simpl app.
    split; assumption.
Qed.

Lemma walk_root_children_at_depth_one_witness :
  showRoot (opts (treeWithMaxDepth (Int 0))) = false
  /\ render plainChalk (treeWithMaxDepth (Int 0)) sample_ab = Ok []
  /\ List.length [propertyEntry [(str "a", VNumber (Int 1)); (str "b", VNumber (Int 2))]
                    (str "a");
                  propertyEntry [(str "a", VNumber (Int 1)); (str "b", VNumber (Int 2))]
                    (str "b")]
     <= List.length [str "├─ a: 1"; str "└─ b: 2"].
Proof.
  split; [reflexivity |].
  pose proof (walk_root_children_at_depth_one plainChalk
                (treeWithMaxDepth (Int 0)) sample_ab
                (node := {| header := str "Object{}";
                            children :=
                              Some [propertyEntry [(str "a", VNumber (Int 1));
                                                   (str "b", VNumber (Int 2))] (str "a");
                                    propertyEntry [(str "a", VNumber (Int 1));
                                                   (str "b", VNumber (Int 2))] (str "b")] |})
                eq_refl eq_refl eq_refl) as (_ & _ & _ & Hzero & _).
  pose proof (walk_root_children_at_depth_one plainChalk
                (treeWithMaxDepth (Int 1)) sample_ab
                (node := {| header := str "Object{}";
                            children :=
                              Some [propertyEntry [(str "a", VNumber (Int 1));
                                                   (str "b", VNumber (Int 2))] (str "a");
                                    propertyEntry [(str "a", VNumber (Int 1));
                                                   (str "b", VNumber (Int 2))] (str "b")] |})
                eq_refl eq_refl eq_refl) as (_ & _ & _ & _ & Hone).
  split; [exact (Hzero eq_refl) |].
  exact (proj1 (Hone eq_refl [str "├─ a: 1"; str "└─ b: 2"] eq_refl)).
Defined.

(** ** Rendering twice *)















(** The two calls at work: in a world of two arrays the first call returns
    the array at location 2; the caller pushes a line of its own to it; the
    second call returns the array at location 3, with the lines the first
    call returned, and the array of the first call keeps the caller's
    line. *)
Example render_twice_in_sample_world :
  let first := Stateful.render defaultTree sample_ab sample_world in
  let second :=
    Stateful.render defaultTree sample_ab
      (Array_push 2 (str "mine") (snd first)) in
  fst first = Ok 2
  /\ arrays (snd first)
     = [[str "kept"]; []; [str "├─ a: 1"; str "└─ b: 2"]]
  /\ fst second = Ok 3
  /\ arrays (snd second)
     = [[str "kept"]; [];
        [str "├─ a: 1"; str "└─ b: 2"; str "mine"];
        [str "├─ a: 1"; str "└─ b: 2"]].
Proof. vm_compute. repeat split. Qed.

(** ** Roots without children *)

(** Apart from the strings the truncation branch takes, a root whose node
    has no children renders to no line when [showRoot] is false. *)
Lemma render_childless_root :
  forall chalk t root node,
    showRoot (opts t) = false ->
    looksLikeTruncation root = false ->
    renderValue chalk root (opts t) = Ok node ->
    children node = None \/ children node = Some [] ->
    render chalk t root = Ok [].
Proof.
  intros chalk t root node Hshow Hmark Hnode Hcs.
  unfold render. cbn [walk]. unfold walkBody.
  destruct (num_gt (Int 0) (maxDepth (opts t))); [reflexivity |].
  rewrite Hmark, Hnode. cbv zeta. rewrite Hshow.
  destruct Hcs as [-> | ->]; reflexivity.
Qed.

(** ** Where the classifier and the walker return *)

Lemma renderValue_returns :
  forall chalk v o,
    format (o_date o) <> FIso ->
    exists node, renderValue chalk v o = Ok node.
Proof.
  intros chalk v o Hformat. rewrite renderValue_dispatch.
  destruct v as [ | | b | n | z | sd | s | d | text | items | items | entries
                | name source | ctor fields | fields ];
    try (simpl; eexists; reflexivity).
  - unfold handleDate. destruct (format (o_date o)); try congruence;
      simpl; eexists; reflexivity.
  - unfold handleClass, handleFunction.
    destruct (isClass (VFunction name source)); simpl; eexists; reflexivity.
Qed.

Lemma renderValue_valid_date_returns :
  forall chalk iso locale o,
    exists node, renderValue chalk (VDate (ValidDate iso locale)) o = Ok node.
Proof.
  intros chalk iso locale o. rewrite renderValue_dispatch.
  unfold handleDate. destruct (format (o_date o)); simpl; eexists; reflexivity.
Qed.

Lemma walkChildren_returns :
  forall (w : Walk) cs,
    Forall (fun c => forall lines levels depth k l dv,
                exists out, w (child_value c) lines levels depth k l dv = Ok out) cs ->
    forall i last lines levels depth,
    exists out, walkChildren w cs i last lines levels depth = Ok out.
Proof.
  intros w cs Hall.
  induction Hall as [|c cs Hc _ IH]; intros i last lines levels depth.
  - eexists; reflexivity.
  - cbn [walkChildren].
    destruct (Hc lines levels (depth + 1)%Z (Some (key c)) (Some (i =? last)%Z)
                (orDefault (divider c) (str ": "))) as (lines' & ->).
    apply IH.
Qed.

(** Unless [date.format] is ["iso"], every walk with a budget above the
    nesting depth returns. *)
Lemma walk_returns :
  forall chalk t,
    format (o_date (opts t)) <> FIso ->
    forall fuel v,
      height v < fuel ->
      forall lines levels depth k l dv,
      exists out, walk chalk t fuel v lines levels depth k l dv = Ok out.
Proof.
  intros chalk t Hformat.
  induction fuel as [|fuel IH]; intros v Hv lines levels depth k l dv; [lia |].
  cbn [walk]. unfold walkBody.
  destruct (num_gt (Int depth) (maxDepth (opts t))); [eexists; reflexivity |].
  destruct (looksLikeTruncation v); [eexists; reflexivity |].
  destruct (renderValue_returns chalk v (opts t) Hformat) as (node & Hnode).
  rewrite Hnode. cbv zeta.
  destruct (children node) as [[|c cs]|] eqn:Hcs; try (eexists; reflexivity).
  apply walkChildren_returns.
  eapply Forall_impl; [| eapply children_below; eassumption].
  intros c0 Hc0. intros. apply IH. simpl in Hc0. lia.
Qed.

(** Unless [date.format] is ["iso"], [render] returns its lines for every
    value. *)
Lemma render_returns :
  forall chalk t root,
    format (o_date (opts t)) <> FIso ->
    exists lines, render chalk t root = Ok lines.
Proof.
  intros chalk t root Hformat. unfold render.
  apply walk_returns; [assumption | lia].
Qed.

(** * Further properties of the handlers and the walker *)

(** ** The children of a node are values of the container *)

Lemma indicesBelow_range :
  forall len i toShow j,
    In j (indicesBelow i len toShow) -> (i <= j < i + Z.of_nat len)%Z.
Proof.
  induction len as [|len IH]; intros i toShow j Hin; cbn [indicesBelow] in Hin;
    [contradiction |].
  destruct (num_lt (Int i) toShow); [| contradiction].
  destruct Hin as [<- | Hin]; [lia |].
  apply IH in Hin. lia.
Qed.

Lemma getIndex_In :
  forall items j,
    (0 <= j < Z.of_nat (List.length items))%Z -> In (getIndex items j) items.
Proof.
  intros items j Hj. unfold getIndex.
  destruct (Z.ltb_spec j 0); [lia |]. apply nth_In. lia.
Qed.

Lemma getProperty_In :
  forall fields k,
    In k (Object_keys fields) -> In (getProperty fields k) (map snd fields).
Proof.
  unfold Object_keys.
  induction fields as [|[k' v] fields IH]; intros k Hin; simpl in *;
    [contradiction |].
  destruct (list_eq_dec N.eq_dec k' k) as [_ | Hne]; [now left |].
  right. apply IH. destruct Hin as [Heq | Hin]; [contradiction | exact Hin].
Qed.

Lemma setLoop_Forall :
  forall (P : value -> Prop) items i toShow,
    Forall P items ->
    Forall (fun c => P (child_value c)) (setLoop items i toShow).
Proof.
  intros P. induction items as [|x items IH]; intros i toShow Hall;
    cbn [setLoop]; [constructor |].
  inversion Hall; subst.
  destruct (num_ge (Int i) toShow); constructor; [assumption | now apply IH].
Qed.

Lemma mapLoop_Forall :
  forall (P : value -> Prop) dv entries i toShow,
    Forall (fun kv => P (snd kv)) entries ->
    Forall (fun c => P (child_value c)) (mapLoop entries i toShow dv).
Proof.
  intros P dv. induction entries as [|[k v] entries IH]; intros i toShow Hall;
    cbn [mapLoop]; [constructor |].
  inversion Hall; subst.
  destruct (num_ge (Int i) toShow); constructor; [assumption | now apply IH].
Qed.

Lemma keyLoop_Forall :
  forall (P : value -> Prop) fields keys toShow,
    (forall k, In k keys -> In k (Object_keys fields)) ->
    Forall P (map snd fields) ->
    Forall (fun c => P (child_value c)) (keyLoop fields keys toShow).
Proof.
  intros P fields keys toShow Hkeys Hall. unfold keyLoop.
  apply Forall_all_in. intros c Hin.
  apply in_flat_map in Hin. destruct Hin as (i & _ & Hc).
  destruct (nth_error keys (Z.to_nat i)) as [k|] eqn:Hk; [| contradiction].
  destruct Hc as [<- | []]. simpl.
  rewrite Forall_forall in Hall. apply Hall.
  apply getProperty_In, Hkeys. eapply nth_error_In; eassumption.
Qed.

(** A property of the values a container holds and of the text of a marker
    is a property of the value of every child. *)
Lemma children_Forall :
  forall (P : value -> Prop) chalk v opts node cs,
    renderValue chalk v opts = Ok node ->
    children node = Some cs ->
    Forall P (subvalues v) ->
    (forall r, P (child_value (truncationEntry r))) ->
    Forall (fun c => P (child_value c)) cs.
Proof.
  intros P chalk v opts node cs Hnode Hcs Hsub Hmark.
  rewrite renderValue_dispatch in Hnode.
  assert (Hm : forall (b : bool) r,
             Forall (fun c => P (child_value c))
                    (if b then [truncationEntry r] else [])).
  { intros [|] r; repeat constructor. apply Hmark. }
  destruct v as [ | | b | n | z | sd | s | d | text | items | items | entries
                | name source | ctor fields | fields ];
    try (simpl in Hnode; injection Hnode as <-; discriminate).
  - unfold handleDate in Hnode.
    destruct (format (o_date opts)); try destruct d; simpl in Hnode;
      try discriminate; injection Hnode as <-; discriminate.
  - simpl in Hnode. injection Hnode as <-. simpl in Hcs. injection Hcs as <-.
    apply Forall_app. split; [| apply Hm].
    apply Forall_all_in. intros c Hin. apply in_map_iff in Hin.
    destruct Hin as (i & <- & Hi). simpl.
    simpl in Hsub. rewrite Forall_forall in Hsub. apply Hsub.
    apply getIndex_In. apply indicesBelow_range in Hi. lia.
  - simpl in Hnode. injection Hnode as <-. simpl in Hcs. injection Hcs as <-.
    apply Forall_app. split; [| apply Hm]. now apply setLoop_Forall.
  - simpl in Hnode. injection Hnode as <-. simpl in Hcs. injection Hcs as <-.
    apply Forall_app. split; [| apply Hm]. apply mapLoop_Forall.
    simpl in Hsub. now rewrite Forall_map in Hsub.
  - unfold handleClass, handleFunction in Hnode.
    destruct (isClass (VFunction name source)); simpl in Hnode;
      injection Hnode as <-; discriminate.
  - simpl in Hnode. injection Hnode as <-. simpl in Hcs. injection Hcs as <-.
    apply Forall_app. split; [| apply Hm].
    apply keyLoop_Forall; [auto | exact Hsub].
  - simpl in Hnode. injection Hnode as <-. simpl in Hcs. injection Hcs as <-.
    apply Forall_app. split; [| apply Hm].
    apply keyLoop_Forall; [| exact Hsub].
    intros k Hk. destruct (sortKeys (o_object opts)); [| exact Hk].
    eapply Permutation_in; [apply sort_perm | exact Hk].
Qed.

(** X2. The classifier invents no value: the value of every child of a
    node is one of the values the container holds (an element of the array
    or set, a value of the map, the value of an own property), or the entry
    is the truncation marker. In particular no [undefined] is read past the
    end of an array or for a key the object lacks. *)
Theorem children_are_values_of_the_container :
  forall chalk v opts node cs,
    renderValue chalk v opts = Ok node ->
    children node = Some cs ->
    Forall (fun c =>
              In (child_value c) (subvalues v)
              \/ exists r, child_value c = child_value (truncationEntry r)) cs.
Proof.
  intros chalk v opts node cs Hnode Hcs.
  apply (@children_Forall
           (fun x => In x (subvalues v)
                     \/ exists r, x = child_value (truncationEntry r))
           _ _ _ _ _ Hnode Hcs).
  - apply Forall_all_in. intros x Hx. now left.
  - intros r. right. now exists r.
Qed.

Lemma children_are_values_of_the_container_witness :
  Forall (fun c =>
            In (child_value c) (subvalues sample_seven)
            \/ exists r, child_value c = child_value (truncationEntry r))
         [ {| key := str "0"; child_value := VNumber (Int 10); divider := None |};
           {| key := str "1"; child_value := VNumber (Int 11); divider := None |};
           {| key := str "2"; child_value := VNumber (Int 12); divider := None |};
           {| key := str "…"; child_value := VString (str "+4 more");
              divider := None |} ].
Proof.
  apply (@children_are_values_of_the_container plainChalk sample_seven
           (opts (treeWithMaxItems (Int 3)))
           ({| header := str "Array(7)";
                       children :=
                         Some [ {| key := str "0"; child_value := VNumber (Int 10);
                                   divider := None |};
                                {| key := str "1"; child_value := VNumber (Int 11);
                                   divider := None |};
                                {| key := str "2"; child_value := VNumber (Int 12);
                                   divider := None |};
                                {| key := str "…";
                                   child_value := VString (str "+4 more");
                                   divider := None |} ] |}) _);
    reflexivity.
Defined.

(** ** Prefixes and indentation *)

Section PrefixFacts.

Variable chalk : Chalk.
Variable this : ObjectTree.

Lemma fold_left_prefix_acc :
  forall (seg : bool -> jsstring) levels (acc : jsstring),
    fold_left (fun prefix (b : bool) => prefix ++ seg b) levels acc
    = acc ++ fold_left (fun prefix (b : bool) => prefix ++ seg b) levels [].
Proof.
  intros seg levels. induction levels as [|b levels IH]; intros acc; simpl.
  - now rewrite app_nil_r.
  - rewrite IH, (IH (seg b)). now rewrite app_assoc.
Qed.

Lemma buildPrefix_app :
  forall pre levels isLast,
    buildPrefix chalk this (pre ++ levels) isLast
    = buildPrefix chalk this pre None ++ buildPrefix chalk this levels isLast.
Proof.
  intros pre levels isLast. unfold buildPrefix.
  rewrite fold_left_app, fold_left_prefix_acc.
  destruct isLast as [[|]|]; rewrite <- ?app_assoc; reflexivity.
Qed.

Lemma buildPrefix_levels_length :
  forall levels,
    (level chalk <= 0)%Z ->
    List.length (pipe (chars (opts this))) = 1 ->
    List.length (buildPrefix chalk this levels None)
    = List.length levels * (1 + List.length (indent (opts this))).
Proof.
  intros levels Hlevel Hpipe.
  induction levels as [|b levels IH] using rev_ind; [reflexivity |].
  rewrite buildPrefix_app, !length_app, IH. cbn [List.length].
  unfold buildPrefix. cbn [fold_left]. unfold connector.
  destruct (Z.gtb_spec (level chalk) 0); [lia |].
  destruct b; rewrite !length_app; cbn [app List.length];
    unfold jsstring in *; rewrite ?Hpipe; simpl; lia.
Qed.

End PrefixFacts.

(** X5. Without colours and with a [pipe] one character wide, the width of
    a line's prefix depends only on the number of ancestor levels and on the
    connector: each level adds one character and the indent, whether it is
    drawn as a pipe or as a blank, so lines of the same depth are aligned
    when [tee] and [ell] have the same width. *)
Theorem buildPrefix_width :
  forall chalk t levels isLast,
    (level chalk <= 0)%Z ->
    List.length (pipe (chars (opts t))) = 1 ->
    List.length (buildPrefix chalk t levels isLast)
    = List.length levels * (1 + List.length (indent (opts t)))
      + match isLast with
        | Some true => List.length (ell (chars (opts t))) + 1
        | Some false => List.length (tee (chars (opts t))) + 1
        | None => 0
        end.
Proof.
  intros chalk t levels isLast Hlevel Hpipe.
  replace levels with (levels ++ []) at 1 by apply app_nil_r.
  rewrite buildPrefix_app, length_app, buildPrefix_levels_length by assumption.
  f_equal. unfold buildPrefix, connector. cbn [fold_left].
  destruct (Z.gtb_spec (level chalk) 0); [lia |].
  destruct isLast as [[|]|]; cbn [app]; rewrite ?length_app; reflexivity.
Qed.

Lemma buildPrefix_width_witness :
  (level plainChalk <= 0)%Z
  /\ List.length (pipe (chars (opts defaultTree))) = 1
  /\ List.length (buildPrefix plainChalk defaultTree [true; false; true] (Some false))
     = 3 * (1 + 2) + (2 + 1).
Proof.
  split; [simpl; lia |]. split; [reflexivity |].
  apply (buildPrefix_width plainChalk defaultTree [true; false; true] (Some false));
    [simpl; lia | reflexivity].
Defined.

Section IndentationFacts.

Variable chalk : Chalk.
Variable this : ObjectTree.

Lemma mapLines_prepend :
  forall f lines r,
    mapLines f (prepend lines r) = prepend (map f lines) (mapLines f r).
Proof. intros f lines [ls| |]; simpl; [now rewrite map_app | |]; reflexivity. Qed.

Lemma walkChildren_indent :
  forall (pre : list bool) (w : Walk) cs,
    Forall (fun c =>
              framed w (child_value c)
              /\ forall levels depth k l dv,
                   w (child_value c) [] (pre ++ levels) depth k l dv
                   = mapLines (app (buildPrefix chalk this pre None))
                              (w (child_value c) [] levels depth k l dv)) cs ->
    forall i last levels depth,
      walkChildren w cs i last [] (pre ++ levels) depth
      = mapLines (app (buildPrefix chalk this pre None))
                 (walkChildren w cs i last [] levels depth).
Proof.
  intros pre w cs Hall.
  induction Hall as [|c cs [Hframe Hc] Hrest IH]; intros i last levels depth;
    [reflexivity |].
  cbn [walkChildren]. rewrite Hc.
  destruct (w (child_value c) [] levels (depth + 1)%Z (Some (key c))
              (Some (i =? last)%Z) (orDefault (divider c) (str ": ")))
    as [out| |]; cbn [mapLines]; try reflexivity.
  assert (Hframes : Forall (fun c0 => framed w (child_value c0)) cs).
  { eapply Forall_impl; [| exact Hrest]. now intros c0 [H _]. }
  rewrite (walkChildren_frame Hframes _ _ (map _ out)).
  rewrite (walkChildren_frame Hframes _ _ out).
  now rewrite IH, mapLines_prepend.
Qed.

Lemma walk_indent :
  forall pre fuel v levels depth k l dv,
    walk chalk this fuel v [] (pre ++ levels) depth k l dv
    = mapLines (app (buildPrefix chalk this pre None))
               (walk chalk this fuel v [] levels depth k l dv).
Proof.
  intros pre. induction fuel as [|fuel IH]; intros v levels depth k l dv;
    [reflexivity |].
  cbn [walk]. unfold walkBody.
  destruct (num_gt (Int depth) (maxDepth (opts this))); [reflexivity |].
  destruct (looksLikeTruncation v).
  { cbn [mapLines app map]. rewrite buildPrefix_app, <- app_assoc. reflexivity. }
  destruct (renderValue chalk v (opts this)) as [node| |] eqn:Hnode;
    try reflexivity.
  cbv zeta.
  assert (Hall : forall cs,
             Forall (fun c =>
                       framed (walk chalk this fuel) (child_value c)
                       /\ forall levels depth k l dv,
                            walk chalk this fuel (child_value c) []
                              (pre ++ levels) depth k l dv
                            = mapLines (app (buildPrefix chalk this pre None))
                                       (walk chalk this fuel (child_value c) []
                                          levels depth k l dv)) cs).
  { intros cs. apply Forall_all_in. intros c _. split; [apply walk_frame |].
    intros. apply IH. }
  assert (Hframes : forall cs,
             Forall (fun c => framed (walk chalk this fuel) (child_value c)) cs).
  { intros cs. apply Forall_all_in. intros c _. apply walk_frame. }
  assert (Hlevels : forall b : bool,
             (if (depth =? 0)%Z then pre ++ levels else (pre ++ levels) ++ [b])
             = pre ++ (if (depth =? 0)%Z then levels else levels ++ [b])).
  { intros b. destruct (depth =? 0)%Z; [reflexivity | now rewrite app_assoc]. }
  destruct (children node) as [[|c cs]|] eqn:Hcs.
  1, 3: destruct k as [k0|];
        [| destruct (showRoot (opts this) || (depth >? 0)%Z)];
        cbn [mapLines app map]; rewrite ?buildPrefix_app, <- ?app_assoc;
        reflexivity.
  rewrite Hlevels.
  etransitivity; [apply (walkChildren_frame (Hframes (c :: cs))) |].
  rewrite (walkChildren_indent pre (Hall (c :: cs))).
  symmetry.
  etransitivity;
    [apply f_equal; apply (walkChildren_frame (Hframes (c :: cs))) |].
  rewrite mapLines_prepend. f_equal.
  destruct k as [k0|]; [| destruct (showRoot (opts this) || (depth >? 0)%Z)];
    cbn [app map]; rewrite ?buildPrefix_app, <- ?app_assoc; reflexivity.
Qed.

End IndentationFacts.

(** X6. Indentation composes: walking a value under more ancestor levels
    changes its lines only by the prefix of those levels, prepended to each
    line; the lines themselves, their number and their order are those of
    the walk without them. *)
Theorem walk_under_more_levels :
  forall chalk t pre fuel v lines levels depth k l dv,
    walk chalk t fuel v lines (pre ++ levels) depth k l dv
    = prepend lines
        (mapLines (app (buildPrefix chalk t pre None))
                  (walk chalk t fuel v [] levels depth k l dv)).
Proof.
  intros chalk t pre fuel v lines levels depth k l dv.
  rewrite (walk_frame chalk t fuel v lines). f_equal. apply walk_indent.
Qed.

(** ** Two configurations *)

Lemma walkChildren_same :
  forall (w1 w2 : Walk) cs,
    (forall x lines levels depth k l dv,
        w1 x lines levels depth (Some k) l dv = w2 x lines levels depth (Some k) l dv) ->
    forall i last lines levels depth,
      walkChildren w1 cs i last lines levels depth
      = walkChildren w2 cs i last lines levels depth.
Proof.
  intros w1 w2 cs Hw. induction cs as [|c cs IH];
    intros i last lines levels depth; [reflexivity |].
  cbn [walkChildren]. rewrite Hw.
  destruct (w2 (child_value c) lines levels (depth + 1)%Z (Some (key c))
              (Some (i =? last)%Z) (orDefault (divider c) (str ": ")));
    [apply IH | reflexivity | reflexivity].
Qed.

(** Two walkers that classify alike, build the same prefixes, paint markers
    alike and have the same depth limit push the same lines for every node
    that has a key, and for the root when they agree on [showRoot]. *)
Lemma walk_same :
  forall chalk1 t1 chalk2 t2,
    (forall v, renderValue chalk1 v (opts t1) = renderValue chalk2 v (opts t2)) ->
    (forall levels l, buildPrefix chalk1 t1 levels l = buildPrefix chalk2 t2 levels l) ->
    (forall s : jsstring,
        (if (level chalk1 >? 0)%Z then paint chalk1 gray s else s)
        = (if (level chalk2 >? 0)%Z then paint chalk2 gray s else s)) ->
    maxDepth (opts t1) = maxDepth (opts t2) ->
    forall fuel v lines levels depth k l dv,
      k <> None \/ showRoot (opts t1) = showRoot (opts t2) ->
      walk chalk1 t1 fuel v lines levels depth k l dv
      = walk chalk2 t2 fuel v lines levels depth k l dv.
Proof.
  intros chalk1 t1 chalk2 t2 Hrender Hprefix Hgray Hdepth.
  induction fuel as [|fuel IH]; intros v lines levels depth k l dv Hk;
    [reflexivity |].
  cbn [walk]. unfold walkBody. rewrite Hdepth, Hrender, !Hprefix.
  destruct (num_gt (Int depth) (maxDepth (opts t2))); [reflexivity |].
  destruct (looksLikeTruncation v) eqn:Hmark.
  { destruct v; try discriminate. now rewrite Hgray. }
  destruct (renderValue chalk2 v (opts t2)) as [node| |]; try reflexivity.
  cbv zeta.
  assert (Hown :
            match k with
            | Some k0 => lines ++ [buildPrefix chalk2 t2 levels l ++ k0 ++ dv ++ header node]
            | None =>
                if showRoot (opts t1) || (depth >? 0)%Z
                then lines ++ [buildPrefix chalk2 t2 levels l ++ header node]
                else lines
            end
            = match k with
              | Some k0 => lines ++ [buildPrefix chalk2 t2 levels l ++ k0 ++ dv ++ header node]
              | None =>
                  if showRoot (opts t2) || (depth >? 0)%Z
                  then lines ++ [buildPrefix chalk2 t2 levels l ++ header node]
                  else lines
              end).
  { destruct k; [reflexivity |]. destruct Hk as [Hk | Hk]; [congruence |].
    now rewrite Hk. }
  rewrite Hown.
  destruct (children node) as [[|c cs]|]; try reflexivity.
  apply walkChildren_same. intros. apply IH. left. discriminate.
Qed.

Lemma renderValue_same_but_colors :
  forall chalk1 chalk2 o1 o2 v,
    (level chalk1 <= 0)%Z -> (level chalk2 <= 0)%Z ->
    sameButColors o1 o2 ->
    renderValue chalk1 v o1 = renderValue chalk2 v o2.
Proof.
  intros chalk1 chalk2 o1 o2 v H1 H2
         (Hc & Hi & Hd & Hs & Hstr & Harr & Hobj & Hset & Hmap & Hdate).
  assert (Hcol : forall text c1 c2, colorize chalk1 text c1 = colorize chalk2 text c2).
  { intros text c1 c2. unfold colorize.
    destruct (Z.gtb_spec (level chalk1) 0); [lia |].
    destruct (Z.gtb_spec (level chalk2) 0); [lia |]. reflexivity. }
  rewrite !renderValue_dispatch.
  destruct v as [ | | b | n | z | sd | s | d | text | items | items | entries
                | name source | ctor fields | fields ];
    unfold handlePrimitive, handleString, handleDate, handleRegExp, handleArray,
      handleSet, handleMap, handleFunction, handleClass, handleInstance,
      handleObject, leaf;
    rewrite ?Hstr, ?Harr, ?Hobj, ?Hset, ?Hmap, ?Hdate;
    try (rewrite (Hcol _ _ (c_null (colors o2))); reflexivity);
    try (now erewrite Hcol).
  - destruct (format (o_date o2)); try destruct (toISOString d);
      try reflexivity; now erewrite Hcol.
  - destruct (isClass (VFunction name source)); now erewrite Hcol.
Qed.

Lemma buildPrefix_same_but_colors :
  forall chalk1 chalk2 t1 t2 levels l,
    (level chalk1 <= 0)%Z -> (level chalk2 <= 0)%Z ->
    sameButColors (opts t1) (opts t2) ->
    buildPrefix chalk1 t1 levels l = buildPrefix chalk2 t2 levels l.
Proof.
  intros chalk1 chalk2 t1 t2 levels l H1 H2 (Hc & Hi & _).
  unfold buildPrefix, connector. rewrite Hc, Hi.
  destruct (Z.gtb_spec (level chalk1) 0); [lia |].
  destruct (Z.gtb_spec (level chalk2) 0); [lia |]. reflexivity.
Qed.

(** X7. When the environment has no colour support ([chalk.level] is 0),
    the colour options and the colour functions have no effect: two
    renderers whose configurations differ only in [colors] and
    [connectorColor] return the same lines for every value. *)
Theorem render_ignores_colors_without_support :
  forall chalk1 chalk2 t1 t2 root,
    (level chalk1 <= 0)%Z ->
    (level chalk2 <= 0)%Z ->
    sameButColors (opts t1) (opts t2) ->
    render chalk1 t1 root = render chalk2 t2 root.
Proof.
  intros chalk1 chalk2 t1 t2 root H1 H2 Hsame. unfold render.
  apply walk_same.
  - intros v. now apply renderValue_same_but_colors.
  - intros levels l. now apply buildPrefix_same_but_colors.
  - intros s. destruct (Z.gtb_spec (level chalk1) 0); [lia |].
    destruct (Z.gtb_spec (level chalk2) 0); [lia |]. reflexivity.
  - apply Hsame.
  - right. apply Hsame.
Qed.

Lemma render_ignores_colors_without_support_witness :
  (level plainChalk <= 0)%Z
  /\ (level mutedChalk <= 0)%Z
  /\ sameButColors (opts defaultTree) (opts (treeWithColor red))
  /\ render plainChalk defaultTree sample_ab
     = render mutedChalk (treeWithColor red) sample_ab.
Proof.
  split; [simpl; lia |]. split; [simpl; lia |].
  split; [repeat split |].
  apply (render_ignores_colors_without_support plainChalk mutedChalk
           defaultTree (treeWithColor red) sample_ab);
    [simpl; lia | simpl; lia | repeat split].
Defined.

(** ** The root line *)

Lemma renderValue_withShowRoot :
  forall chalk v b o, renderValue chalk v (withShowRoot b o) = renderValue chalk v o.
Proof. intros chalk v b o. rewrite !renderValue_dispatch. destruct v; reflexivity. Qed.

Lemma buildPrefix_withShowRoot :
  forall chalk b b' o levels l,
    buildPrefix chalk {| opts := withShowRoot b o |} levels l
    = buildPrefix chalk {| opts := withShowRoot b' o |} levels l.
Proof. reflexivity. Qed.

(** X8. [showRoot] only adds the root's header in front: for a root that is
    classified (not taken for a truncation marker) and within the depth
    limit, the lines rendered with [showRoot] true are the header of the
    root, without any prefix, followed by exactly the lines rendered with
    [showRoot] false; the children are not indented further. *)
Theorem render_showRoot_adds_header :
  forall chalk o root node,
    looksLikeTruncation root = false ->
    renderValue chalk root o = Ok node ->
    num_gt (Int 0) (maxDepth o) = false ->
    render chalk {| opts := withShowRoot true o |} root
    = prepend [header node]
        (render chalk {| opts := withShowRoot false o |} root).
Proof.
  intros chalk o root node Hmark Hnode Hdepth.
  unfold render. cbn [walk]. unfold walkBody. cbn [opts].
  rewrite !renderValue_withShowRoot, Hnode, Hmark.
  change (maxDepth (withShowRoot true o)) with (maxDepth o).
  change (maxDepth (withShowRoot false o)) with (maxDepth o).
  rewrite Hdepth. cbv zeta. cbn [showRoot withShowRoot orb Z.eqb].
  change (0 >? 0)%Z with false. cbn [app buildPrefix fold_left].
  destruct (children node) as [[|c cs]|]; try reflexivity.
  assert (Hframes :
            Forall (fun c0 =>
                      framed (walk chalk {| opts := withShowRoot false o |}
                                (height root)) (child_value c0)) (c :: cs)).
  { apply Forall_all_in. intros c0 _. apply walk_frame. }
  rewrite <- (walkChildren_frame Hframes).
  apply walkChildren_same. intros.
  apply walk_same; try reflexivity;
    try (intros v; now rewrite !renderValue_withShowRoot).
  left. discriminate.
Qed.

Lemma render_showRoot_adds_header_witness :
  looksLikeTruncation sample_ab = false
  /\ num_gt (Int 0) (maxDepth (opts defaultTree)) = false
  /\ render plainChalk {| opts := withShowRoot true (opts defaultTree) |} sample_ab
     = Ok [str "Object{}"; str "├─ a: 1"; str "└─ b: 2"].
Proof.
  split; [reflexivity |]. split; [reflexivity |].
  exact (@render_showRoot_adds_header plainChalk (opts defaultTree) sample_ab
           {| header := str "Object{}";
              children :=
                Some [propertyEntry [(str "a", VNumber (Int 1));
                                     (str "b", VNumber (Int 2))] (str "a");
                      propertyEntry [(str "a", VNumber (Int 1));
                                     (str "b", VNumber (Int 2))] (str "b")] |}
           eq_refl eq_refl eq_refl).
Defined.

(** ** Limits that are not counts *)

Lemma mapLoop_NaN :
  forall dv entries i, mapLoop entries i NaN dv = map (mapEntry dv) entries.
Proof.
  induction entries as [|[k v] entries IH]; intros i; simpl; [reflexivity |].
  f_equal. apply IH.
Qed.

Lemma setLoop_NegInfinity :
  forall items i, setLoop items i NegInfinity = [].
Proof. intros [|x items] i; reflexivity. Qed.

Lemma mapLoop_NegInfinity :
  forall dv entries i, mapLoop entries i NegInfinity dv = [].
Proof. intros dv [|[k v] entries] i; reflexivity. Qed.

Lemma Math_min_size :
  forall (S : nat) M, Math_min (Int (Z.of_nat S)) M <> PosInfinity.
Proof. intros S [| |m|]; discriminate. Qed.

(** The children of every container, whatever number its limit is: what
    the loop pushes, then the marker when [toShow < size]. *)
Lemma container_children_shape :
  forall chalk opts v all M,
    containerEntries v opts = Some (all, M) ->
    let size := Int (Z.of_nat (List.length all)) in
    let toShow := Math_min size M in
    exists h,
      renderValue chalk v opts
      = Ok {| header := h;
              children :=
                Some (loopEntries v all toShow
                      ++ (if num_lt toShow size
                          then [truncationEntry (num_sub size toShow)]
                          else [])) |}.
Proof.
  intros chalk opts v all M Hent size toShow.
  destruct v as [ | | b | n | z | sd | s | d | text | items | items | entries
                | name source | ctor fields | fields ];
    simpl in Hent; try discriminate;
    injection Hent as Hall HM; rewrite renderValue_dispatch.
  - (* array *)
    assert (HS : List.length all = List.length items)
      by (subst all; apply indexedFrom_length).
    eexists. unfold handleArray, firstMatch. rewrite HM, <- HS. fold size. fold toShow.
    do 3 f_equal. unfold loopEntries. f_equal.
    destruct toShow as [| |t|] eqn:Ht.
    + now rewrite indicesBelow_none.
    + now rewrite indicesBelow_none.
    + pose proof (arrayLoop_firstn items [] t) as Hloop. simpl in Hloop.
      rewrite <- HS in Hloop. rewrite Hloop, Z.sub_0_r, Hall. reflexivity.
    + now apply Math_min_size in Ht.
  - (* set *)
    assert (HS : List.length all = List.length items)
      by (subst all; apply indexedFrom_length).
    eexists. unfold handleSet, firstMatch. rewrite HM, <- HS. fold size. fold toShow.
    do 3 f_equal. unfold loopEntries. f_equal.
    destruct toShow as [| |t|] eqn:Ht.
    + now rewrite setLoop_NaN.
    + apply setLoop_NegInfinity.
    + now rewrite setLoop_firstn, Z.sub_0_r, Hall.
    + now apply Math_min_size in Ht.
  - (* map *)
    assert (HS : List.length all = List.length entries)
      by (subst all; apply length_map).
    eexists. unfold handleMap, firstMatch. rewrite HM, <- HS. fold size. fold toShow.
    do 3 f_equal. unfold loopEntries. f_equal.
    destruct toShow as [| |t|] eqn:Ht.
    + now rewrite mapLoop_NaN.
    + apply mapLoop_NegInfinity.
    + now rewrite mapLoop_firstn, Z.sub_0_r, Hall.
    + now apply Math_min_size in Ht.
  - (* instance *)
    assert (HS : List.length all = List.length (Object_keys fields))
      by (subst all; apply length_map).
    eexists. unfold handleInstance, firstMatch. rewrite HM, <- HS. fold size. fold toShow.
    do 3 f_equal. unfold loopEntries. f_equal.
    destruct toShow as [| |t|] eqn:Ht.
    + unfold keyLoop. now rewrite indicesBelow_none.
    + unfold keyLoop. now rewrite indicesBelow_none.
    + now rewrite keyLoop_firstn, Hall.
    + now apply Math_min_size in Ht.
  - (* plain object *)
    set (ks := if sortKeys (o_object opts) then sort (Object_keys fields)
               else Object_keys fields) in *.
    assert (HS : List.length all = List.length ks)
      by (subst all; apply length_map).
    eexists. unfold handleObject, firstMatch. fold ks. rewrite HM, <- HS.
    fold size. fold toShow.
    do 3 f_equal. unfold loopEntries. f_equal.
    destruct toShow as [| |t|] eqn:Ht.
    + unfold keyLoop. now rewrite indicesBelow_none.
    + unfold keyLoop. now rewrite indicesBelow_none.
    + now rewrite keyLoop_firstn, Hall.
    + now apply Math_min_size in Ht.
Qed.

(** X9. A negative limit is not read as "no limit": for every container,
    [maxItems] or [maxKeys] below zero leaves no regular child at all and
    one marker whose count [S - M] is larger than the size [S]; an empty
    container gets a marker too. The count is the exact difference as long
    as the size, the limit and the difference are safe integers. *)
Theorem negative_limit_shows_only_a_marker :
  forall chalk opts v all m,
    containerEntries v opts = Some (all, Int m) ->
    (m < 0)%Z ->
    exactCount (List.length all) (Int m) ->
    exists h,
      renderValue chalk v opts
      = Ok {| header := h;
              children :=
                Some [truncationEntry (Int (Z.of_nat (List.length all) - m))] |}.
Proof.
  intros chalk opts v all m Hent Hm _.
  destruct (container_children_shape chalk opts v Hent) as (h & Hh).
  exists h. rewrite Hh. cbn [Math_min loopEntries num_lt num_sub].
  replace (Z.min (Z.of_nat (List.length all)) m) with m by lia.
  replace (Z.to_nat m) with 0 by lia.
  destruct (Z.ltb_spec m (Z.of_nat (List.length all))); [reflexivity | lia].
Qed.

Lemma negative_limit_shows_only_a_marker_witness :
  containerEntries (VArray []) (opts (treeWithMaxItems (Int (-1))))
  = Some ([], Int (-1))
  /\ (-1 < 0)%Z
  /\ exactCount (List.length (@nil ChildEntry)) (Int (-1))
  /\ exists h,
       renderValue plainChalk (VArray []) (opts (treeWithMaxItems (Int (-1))))
       = Ok {| header := h;
               children :=
                 Some [ {| key := str "…"; child_value := VString (str "+1 more");
                           divider := None |} ] |}.
Proof.
  split; [reflexivity |]. split; [lia |].
  split; [unfold exactCount, safeInteger; simpl; lia |].
  apply (@negative_limit_shows_only_a_marker plainChalk
           (opts (treeWithMaxItems (Int (-1)))) (VArray []) [] (-1)%Z);
    [reflexivity | lia | unfold exactCount, safeInteger; simpl; lia].
Defined.

(** X10. A limit that is [NaN] is treated differently by the two kinds of
    loop: an array, a plain object and a class instance get no child at
    all, a set and a map get every entry; in both cases no marker is
    appended. *)
Theorem NaN_limit_children :
  forall chalk opts v all,
    containerEntries v opts = Some (all, NaN) ->
    exists h,
      renderValue chalk v opts
      = Ok {| header := h;
              children :=
                Some (match v with
                      | VSet _ | VMap _ => all
                      | _ => []
                      end) |}.
Proof.
  intros chalk opts v all Hent.
  destruct (container_children_shape chalk opts v Hent) as (h & Hh).
  exists h. rewrite Hh. cbn [Math_min loopEntries num_lt].
  now rewrite app_nil_r.
Qed.

Lemma NaN_limit_children_witness :
  containerEntries (VSet [VNull; VNull]) (opts (treeWithSetMaxItems NaN))
  = Some (indexedFrom 0 [VNull; VNull], NaN)
  /\ exists h,
       renderValue plainChalk (VSet [VNull; VNull]) (opts (treeWithSetMaxItems NaN))
       = Ok {| header := h; children := Some (indexedFrom 0 [VNull; VNull]) |}.
Proof.
  split; [reflexivity |].
  apply (@NaN_limit_children plainChalk (opts (treeWithSetMaxItems NaN))
           (VSet [VNull; VNull]) (indexedFrom 0 [VNull; VNull])).
  reflexivity.
Defined.

(** ** String truncation below 1 *)

(** X11. With a [maxLength] of 0 or less the string is not cut to
    [maxLength]: [slice] counts a negative end from the end of the string,
    so a string of length [L > maxLength] keeps its first
    [L + maxLength - 1] characters (none when that is negative) before the
    ellipsis; with [maxLength] 0 it loses its last character only. The
    empty string is unchanged under [maxLength] 0. *)
Theorem handleString_nonpositive_maxLength :
  forall chalk opts s m,
    maxLength (o_string opts) = Int m ->
    (m <= 0)%Z ->
    let L := Z.of_nat (List.length s) in
    handleString chalk (VString s) opts
    = Ok (Some {| header :=
                    colorize chalk
                      (quote (if (m <? L)%Z
                              then firstn (Z.to_nat (L + m - 1)) s ++ str "…"
                              else s)
                             (quotes (o_string opts)))
                      (c_string (colors opts));
                  children := None |}).
Proof.
  intros chalk opts s m Hmax Hm L.
  unfold handleString, leaf, truncate. rewrite Hmax.
  cbn [num_gt num_lt num_sub]. fold L.
  destruct (Z.ltb_spec m L) as [Hlt | Hge]; [| reflexivity].
  unfold slice0. fold L.
  destruct (Z.ltb_spec (m - 1) 0) as [_ | Hpos]; [| lia].
  replace (Z.to_nat (Z.max (L + (m - 1)) 0)) with (Z.to_nat (L + m - 1)) by lia.
  reflexivity.
Qed.

Lemma handleString_nonpositive_maxLength_witness :
  maxLength (o_string (opts (treeWithMaxLength (Int (-1))))) = Int (-1)
  /\ (-1 <= 0)%Z
  /\ handleString plainChalk (VString (str "abcdef"))
       (opts (treeWithMaxLength (Int (-1))))
     = Ok (Some {| header := dq ++ str "abcd…" ++ dq; children := None |}).
Proof.
  split; [reflexivity |]. split; [lia |].
  apply (@handleString_nonpositive_maxLength plainChalk
           (opts (treeWithMaxLength (Int (-1)))) (str "abcdef") (-1)%Z);
    [reflexivity | lia].
Defined.

(** ** Own properties *)

Lemma getProperty_own :
  forall fields k v,
    NoDup (Object_keys fields) -> In (k, v) fields -> getProperty fields k = v.
Proof.
  unfold Object_keys.
  induction fields as [|[k' v'] fields IH]; intros k v Hnd Hin; simpl in *;
    [contradiction |].
  inversion Hnd as [|? ? Hnotin Hnd']; subst.
  destruct (list_eq_dec N.eq_dec k' k) as [-> | Hne].
  - destruct Hin as [Heq | Hin]; [congruence |].
    exfalso. apply Hnotin. apply in_map_iff. now exists (k, v).
  - destruct Hin as [Heq | Hin]; [congruence |]. now apply IH.
Qed.

Lemma propertyEntry_own :
  forall fields,
    NoDup (Object_keys fields) ->
    map (propertyEntry fields) (Object_keys fields) = map ownEntry fields.
Proof.
  intros fields Hnd. unfold Object_keys. rewrite map_map.
  apply map_ext_in. intros [k v] Hin. unfold propertyEntry, ownEntry.
  cbn [fst snd]. f_equal. now apply getProperty_own.
Qed.

(** X12. A class instance is labelled with the name of its constructor
    followed by ["{}"] (["Object"] when the name is missing or empty), and,
    its keys being distinct, its children are its own properties in
    enumeration order, each key with its own value, cut to [maxKeys] and
    followed by the marker when some are left out; they are never sorted. *)
Theorem handleInstance_own_properties :
  forall chalk opts ctor fields,
    NoDup (Object_keys fields) ->
    isLimit (maxKeys (o_object opts)) ->
    let S := List.length fields in
    let M := maxKeys (o_object opts) in
    renderValue chalk (VInstance ctor fields) opts
    = Ok {| header :=
              colorize chalk
                (match ctor with
                 | Some (c :: name) => c :: name
                 | _ => str "Object"
                 end ++ str "{}")
                (c_instance (colors opts));
            children :=
              Some (firstn (shownCount S M) (map ownEntry fields)
                    ++ (if num_lt M (Int (Z.of_nat S))
                        then [truncationEntry (num_sub (Int (Z.of_nat S)) M)]
                        else [])) |}.
Proof.
  intros chalk opts ctor fields Hnd HM S M.
  destruct (clamp_limit S M HM) as (t & Ht & Hn & Hlt & Hsub).
  rewrite renderValue_dispatch. unfold handleInstance, firstMatch.
  replace (List.length (Object_keys fields)) with S
    by (unfold Object_keys; now rewrite length_map).
  fold M. rewrite Ht, keyLoop_firstn, Hn, propertyEntry_own by assumption.
  rewrite Hlt.
  replace (nameOr match ctor with Some n => n | None => [] end (str "Object"))
    with (match ctor with Some (c :: name) => c :: name | _ => str "Object" end)
    by (destruct ctor as [[|c name]|]; reflexivity).
  destruct (num_lt M (Int (Z.of_nat S))) eqn:E; [| reflexivity].
  now rewrite (Hsub eq_refl).
Qed.

Lemma handleInstance_own_properties_witness :
  NoDup (Object_keys [(str "y", VNumber (Int 2)); (str "x", VNumber (Int 1))])
  /\ isLimit (maxKeys (o_object (opts (treeWithMaxKeys (Int 1)))))
  /\ renderValue plainChalk sample_point (opts (treeWithMaxKeys (Int 1)))
     = Ok {| header := str "Point{}";
             children :=
               Some [ {| key := str "y"; child_value := VNumber (Int 2);
                         divider := None |};
                      {| key := str "…"; child_value := VString (str "+1 more");
                         divider := None |} ] |}.
Proof.
  assert (Hnd : NoDup (Object_keys [(str "y", VNumber (Int 2));
                                    (str "x", VNumber (Int 1))])).
  { repeat constructor; simpl; intros H;
      repeat (destruct H as [H | H]; [discriminate |]); exact H. }
  split; [exact Hnd |]. split; [simpl; lia |].
  apply (@handleInstance_own_properties plainChalk
           (opts (treeWithMaxKeys (Int 1))) (Some (str "Point"))
           [(str "y", VNumber (Int 2)); (str "x", VNumber (Int 1))]);
    [exact Hnd | simpl; lia].
Defined.

(** ** The line of the marker *)

Lemma walkChildren_app :
  forall (w : Walk) a b i last lines levels depth,
    walkChildren w (a ++ b) i last lines levels depth
    = match walkChildren w a i last lines levels depth with
      | Ok lines' =>
          walkChildren w b (i + Z.of_nat (List.length a))%Z last lines' levels depth
      | Throw e => Throw e
      | OutOfFuel => OutOfFuel
      end.
Proof.
  intros w a. induction a as [|c a IH]; intros b i last lines levels depth.
  - simpl. now rewrite Z.add_0_r.
  - cbn [app walkChildren].
    destruct (w (child_value c) lines levels (depth + 1)%Z (Some (key c))
                (Some (i =? last)%Z) (orDefault (divider c) (str ": ")));
      try reflexivity.
    rewrite IH. cbn [List.length].
    now replace (i + 1 + Z.of_nat (List.length a))%Z
      with (i + Z.of_nat (S (List.length a)))%Z by lia.
Qed.

Lemma num_gt_pred :
  forall d M, num_gt (Int (d + 1)) M = false -> num_gt (Int d) M = false.
Proof.
  intros d [| |m|] H; try reflexivity; try discriminate.
  unfold num_gt, num_lt in *. apply Z.ltb_ge. apply Z.ltb_ge in H. lia.
Qed.

(** X13. When a container is clamped, the last line of its block is the
    line of the marker: for a container whose limit is below its size and
    whose children are within the depth limit, the walk ends with the
    prefix of the children's level under the "last" connector, the key
    ["…"], the divider [": "] and the text ["+N more"] (painted gray when
    colours are supported), [N] being the number of entries left out, as
    long as the size, the limit and their difference are safe integers. *)
Theorem walk_clamped_container_ends_with_marker :
  forall chalk t fuel v all M lines levels depth k l dv out,
    containerEntries v (opts t) = Some (all, M) ->
    let size := Int (Z.of_nat (List.length all)) in
    let toShow := Math_min size M in
    num_lt toShow size = true ->
    exactCount (List.length all) M ->
    num_gt (Int (depth + 1)) (maxDepth (opts t)) = false ->
    walk chalk t (S (S fuel)) v lines levels depth k l dv = Ok out ->
    let childLevels :=
      if (depth =? 0)%Z then levels
      else levels ++ [negb (match l with Some true => true | _ => false end)] in
    let text := str "+" ++ Number_toString (num_sub size toShow) ++ str " more" in
    exists before,
      out = before
            ++ [buildPrefix chalk t childLevels (Some true) ++ str "…" ++ str ": "
                ++ (if (level chalk >? 0)%Z then paint chalk gray text else text)].
Proof.
  intros chalk t fuel v all M lines levels depth k l dv out Hent size toShow
         Hclamped _ Hdepth Hwalk childLevels text.
  destruct (container_children_shape chalk (opts t) v Hent) as (h & Hnode).
  fold size in Hnode. fold toShow in Hnode. rewrite Hclamped in Hnode.
  assert (Hmark : looksLikeTruncation v = false)
    by (destruct v; try reflexivity; discriminate).
  cbn [walk] in Hwalk. unfold walkBody in Hwalk.
  rewrite (num_gt_pred _ _ Hdepth), Hmark, Hnode in Hwalk.
  cbv zeta in Hwalk. cbn [children header] in Hwalk.
  set (regular := loopEntries v all toShow) in *.
  set (lines1 := match k with
                 | Some k0 => lines ++ [buildPrefix chalk t levels l ++ k0 ++ dv ++ h]
                 | None =>
                     if showRoot (opts t) || (depth >? 0)%Z
                     then lines ++ [buildPrefix chalk t levels l ++ h]
                     else lines
                 end) in *.
  assert (Hloop :
            walkChildren (walk chalk t (S fuel))
              (regular ++ [truncationEntry (num_sub size toShow)]) 0
              (Z.of_nat (List.length
                           (regular ++ [truncationEntry (num_sub size toShow)])) - 1)
              lines1 childLevels depth = Ok out).
  { destruct regular as [|c cs]; exact Hwalk. }
  clear Hwalk. rewrite walkChildren_app in Hloop.
  destruct (walkChildren (walk chalk t (S fuel)) regular 0
              (Z.of_nat (List.length
                           (regular ++ [truncationEntry (num_sub size toShow)])) - 1)
              lines1 childLevels depth) as [before| |]; try discriminate.
  exists before. cbn [walkChildren truncationEntry child_value key divider
                        orDefault] in Hloop.
  rewrite walk_truncation_line in Hloop.
  - rewrite length_app in Hloop. cbn [List.length] in Hloop.
    replace (0 + Z.of_nat (List.length regular)
             =? Z.of_nat (List.length regular + 1) - 1)%Z with true in Hloop
      by (symmetry; apply Z.eqb_eq; lia).
    injection Hloop as <-. reflexivity.
  - apply (truncationEntry_looksLikeTruncation (num_sub size toShow)).
  - exact Hdepth.
Qed.

Lemma walk_clamped_container_ends_with_marker_witness :
  exactCount 7 (Int 3)
  /\ exists before,
       [str "├─ 0: 10"; str "├─ 1: 11"; str "├─ 2: 12"; str "└─ …: +4 more"]
       = before ++ [str "└─ …: +4 more"].
Proof.
  assert (Hexact : exactCount 7 (Int 3))
    by (unfold exactCount, safeInteger; simpl; lia).
  split; [exact Hexact |].
  exact (@walk_clamped_container_ends_with_marker plainChalk
           (treeWithMaxItems (Int 3)) 0 sample_seven
           (indexedFrom 0 (map (fun z => VNumber (Int z))
                               [10; 11; 12; 13; 14; 15; 16]%Z))
           (Int 3) [] [] 0%Z None None (str ": ")
           [str "├─ 0: 10"; str "├─ 1: 11"; str "├─ 2: 12"; str "└─ …: +4 more"]
           eq_refl eq_refl Hexact eq_refl eq_refl).
Defined.

(** ** The number of lines *)

Lemma fold_right_conj_Forall :
  forall (A : Type) (P : A -> Prop) (l : list A),
    fold_right (fun x acc => P x /\ acc) True l -> Forall P l.
Proof.
  intros A P l. induction l as [|x l IH]; simpl; [constructor |].
  intros [Hx Hl]. constructor; [exact Hx | now apply IH].
Qed.

Lemma keysDistinct_subvalues :
  forall v, keysDistinct v -> Forall keysDistinct (subvalues v).
Proof.
  intros v Hv.
  destruct v as [ | | b | n | z | sd | s | d | text | items | items | entries
                | name source | ctor fields | fields ];
    simpl in *; try constructor.
  1, 2: now apply fold_right_conj_Forall.
  - apply Forall_map. now apply fold_right_conj_Forall in Hv.
  - apply Forall_map. destruct Hv as [_ Hv]. now apply fold_right_conj_Forall in Hv.
  - apply Forall_map. destruct Hv as [_ Hv]. now apply fold_right_conj_Forall in Hv.
Qed.

Lemma list_sum_Permutation :
  forall l l', Permutation l l' -> list_sum l = list_sum l'.
Proof.
  intros l l' H. induction H; simpl; lia.
Qed.

Lemma nodes_indexedFrom :
  forall items i,
    map (fun c => nodes (child_value c)) (indexedFrom i items) = map nodes items.
Proof.
  induction items as [|x items IH]; intros i; simpl; [reflexivity |].
  now rewrite IH.
Qed.

(** Without limits, the nodes of a value are the value and the nodes of the
    children of its node. *)
Lemma nodes_children :
  forall chalk o v node,
    unbounded o ->
    keysDistinct v ->
    renderValue chalk v o = Ok node ->
    nodes v
    = S (list_sum (map (fun c => nodes (child_value c))
                       (match children node with Some cs => cs | None => [] end))).
Proof.
  intros chalk o v node (_ & Harr & Hobj & Hset & Hmap) Hkeys Hnode.
  destruct (containerEntries v o) as [[all M]|] eqn:Hent.
  - destruct (container_children_shape chalk o v Hent) as (h & Hshape).
    rewrite Hnode in Hshape. injection Hshape as ->. cbn [children].
    assert (HM : M = PosInfinity).
    { destruct v; simpl in Hent; try discriminate; injection Hent as _ <-;
        assumption. }
    subst M. cbn [Math_min loopEntries num_lt].
    rewrite Z.ltb_irrefl, app_nil_r, Nat2Z.id, firstn_all.
    destruct v as [ | | b | n | z | sd | s | d | text | items | items | entries
                  | name source | ctor fields | fields ];
      simpl in Hent; try discriminate; injection Hent as <-; cbn [nodes].
    + now rewrite nodes_indexedFrom.
    + now rewrite nodes_indexedFrom.
    + now rewrite map_map.
    + destruct Hkeys as [Hnd _].
      rewrite propertyEntry_own by exact Hnd. now rewrite map_map.
    + destruct Hkeys as [Hnd _]. f_equal. symmetry.
      transitivity (list_sum (map (fun c => nodes (child_value c))
                                  (map (propertyEntry fields) (Object_keys fields)))).
      * destruct (sortKeys (o_object o)); [| reflexivity].
        apply list_sum_Permutation. do 2 apply Permutation_map.
        apply sort_perm.
      * rewrite propertyEntry_own by exact Hnd. now rewrite map_map.
  - rewrite renderValue_dispatch in Hnode.
    destruct v as [ | | b | n | z | sd | s | d | text | items | items | entries
                  | name source | ctor fields | fields ];
      simpl in Hent; try discriminate;
      try (simpl in Hnode; injection Hnode as <-; reflexivity).
    + unfold handleDate in Hnode.
      destruct (format (o_date o)); try destruct d; simpl in Hnode;
        try discriminate; injection Hnode as <-; reflexivity.
    + unfold handleClass, handleFunction in Hnode.
      destruct (isClass (VFunction name source)); simpl in Hnode;
        injection Hnode as <-; reflexivity.
Qed.

Lemma walkChildren_count :
  forall (w : Walk) (f : ChildEntry -> nat) cs,
    Forall (fun c => forall lines levels depth k l dv out,
                w (child_value c) lines levels depth (Some k) l dv = Ok out ->
                List.length out = List.length lines + f c) cs ->
    forall i last lines levels depth out,
      walkChildren w cs i last lines levels depth = Ok out ->
      List.length out = List.length lines + list_sum (map f cs).
Proof.
  intros w f cs Hall.
  induction Hall as [|c cs Hc _ IH]; intros i last lines levels depth out H.
  - injection H as <-. simpl. lia.
  - cbn [walkChildren] in H.
    destruct (w (child_value c) lines levels (depth + 1)%Z (Some (key c))
                (Some (i =? last)%Z) (orDefault (divider c) (str ": ")))
      as [lines'| |] eqn:E; try discriminate.
    apply Hc in E. apply IH in H. simpl. unfold jsstring in *. lia.
Qed.

Lemma walk_own_and_children_count :
  forall chalk t fuel v node own lines levels depth out,
    unbounded (opts t) ->
    keysDistinct v ->
    renderValue chalk v (opts t) = Ok node ->
    (forall x, keysDistinct x ->
       forall lines levels depth k l dv out,
         walk chalk t fuel x lines levels depth (Some k) l dv = Ok out ->
         List.length out = List.length lines + nodes x) ->
    match children node with
    | Some ((_ :: _) as cs) =>
        walkChildren (walk chalk t fuel) cs 0
          (Z.of_nat (List.length cs) - 1) (lines ++ own) levels depth
    | _ => Ok (lines ++ own)
    end = Ok out ->
    List.length out + 1 = List.length lines + List.length own + nodes v.
Proof.
  intros chalk t fuel v node own lines levels depth out Hunb Hkeys Hnode IH H.
  rewrite (nodes_children chalk v Hunb Hkeys Hnode).
  destruct (children node) as [[|c cs]|] eqn:Hcs.
  1, 3: injection H as <-; rewrite length_app; simpl; unfold jsstring in *; lia.
  apply (@walkChildren_count _ (fun c0 => nodes (child_value c0))) in H.
  - rewrite length_app in H. unfold jsstring in *. lia.
  - pose proof (@children_Forall keysDistinct _ _ _ _ _ Hnode Hcs
                  (keysDistinct_subvalues v Hkeys) (fun r => I)) as Hchildren.
    eapply Forall_impl; [| exact Hchildren].
    intros c0 Hc0. intros. eapply IH; eassumption.
Qed.

Lemma walk_count :
  forall chalk t,
    unbounded (opts t) ->
    forall fuel v,
      keysDistinct v ->
      forall lines levels depth k l dv out,
        walk chalk t fuel v lines levels depth (Some k) l dv = Ok out ->
        List.length out = List.length lines + nodes v.
Proof.
  intros chalk t Hunb. induction fuel as [|fuel IH];
    intros v Hkeys lines levels depth k l dv out H; [discriminate |].
  cbn [walk] in H. unfold walkBody in H.
  destruct Hunb as (Hdepth & Hrest). rewrite Hdepth in H. cbn [num_gt num_lt] in H.
  destruct (looksLikeTruncation v) eqn:Hmark.
  { destruct v; try discriminate. injection H as <-.
    rewrite length_app. reflexivity. }
  destruct (renderValue chalk v (opts t)) as [node| |] eqn:Hnode;
    try discriminate.
  cbv zeta in H.
  pose proof (@walk_own_and_children_count chalk t fuel v node
                [buildPrefix chalk t levels l ++ k ++ dv ++ header node]
                lines _ depth out (conj Hdepth Hrest) Hkeys Hnode IH H) as Hc.
  simpl in Hc. unfold jsstring in *. lia.
Qed.

(** X14. With no limit set, every node of the value gets exactly one line:
    for a value whose objects have distinct keys and that is not taken for
    a truncation marker, the lines [render] returns are as many as the
    nodes of the value when [showRoot] is true, and one less (the root
    has no line) when it is false. *)
Theorem render_line_count :
  forall chalk t root lines,
    unbounded (opts t) ->
    keysDistinct root ->
    looksLikeTruncation root = false ->
    render chalk t root = Ok lines ->
    List.length lines = if showRoot (opts t) then nodes root else nodes root - 1.
Proof.
  intros chalk t root lines Hunb Hkeys Hmark H.
  unfold render in H. cbn [walk] in H. unfold walkBody in H.
  pose proof Hunb as (Hdepth & _). rewrite Hdepth, Hmark in H.
  cbn [num_gt num_lt] in H.
  destruct (renderValue chalk root (opts t)) as [node| |] eqn:Hnode;
    try discriminate.
  cbv zeta in H. change (0 >? 0)%Z with false in H. rewrite orb_false_r in H.
  assert (Hnodes : 1 <= nodes root) by (destruct root; simpl; lia).
  destruct (showRoot (opts t)).
  - pose proof (@walk_own_and_children_count chalk t (height root) root node
                  [buildPrefix chalk t [] None ++ header node]
                  [] _ 0%Z lines Hunb Hkeys Hnode
                  (@walk_count chalk t Hunb (height root)) H) as Hc.
    simpl in Hc. unfold jsstring in *. lia.
  - pose proof (@walk_own_and_children_count chalk t (height root) root node
                  [] [] _ 0%Z lines Hunb Hkeys Hnode
                  (@walk_count chalk t Hunb (height root)) H) as Hc.
    simpl in Hc. unfold jsstring in *. lia.
Qed.

Lemma render_line_count_witness :
  unbounded (opts defaultTree)
  /\ keysDistinct sample_nested
  /\ render plainChalk defaultTree sample_nested
     = Ok [str "├─ a: Set(1)";
           str "│  └─ 0: true";
           str "└─ b: Array(2)";
           str "   ├─ 0: 1";
           str "   └─ 1: Object{}";
           str "      └─ k: null"]
  /\ 6 = nodes sample_nested - 1.
Proof.
  assert (Hkeys : keysDistinct sample_nested).
  { simpl. repeat split; repeat constructor; simpl; intros H;
      repeat (destruct H as [H | H]; [discriminate |]); exact H. }
  split; [repeat split |]. split; [exact Hkeys |]. split; [reflexivity |].
  exact (@render_line_count plainChalk defaultTree sample_nested
           [str "├─ a: Set(1)";
            str "│  └─ 0: true";
            str "└─ b: Array(2)";
            str "   ├─ 0: 1";
            str "   └─ 1: Object{}";
            str "      └─ k: null"]
           (conj eq_refl (conj eq_refl (conj eq_refl (conj eq_refl eq_refl))))
           Hkeys eq_refl eq_refl).
Defined.

(** ** The blocks of the children *)

(** X15. The lines of a node's children are the blocks of the children one
    after the other, in the order of the children: the block of a child is
    what its walk pushes on an empty array, it depends on the child's own
    value, key and divider and on whether the child is the last one, not on
    its siblings; if a child throws, the loop throws. *)
Theorem walkChildren_concatenates_blocks :
  forall chalk t fuel cs i last lines levels depth,
    walkChildren (walk chalk t fuel) cs i last lines levels depth
    = prepend lines
        (concatBlocks (childBlocks (walk chalk t fuel) cs i last levels depth)).
Proof.
  intros chalk t fuel cs. induction cs as [|c cs IH];
    intros i last lines levels depth.
  - simpl. now rewrite app_nil_r.
  - cbn [walkChildren childBlocks concatBlocks].
    rewrite (walk_frame chalk t fuel (child_value c) lines).
    destruct (walk chalk t fuel (child_value c) [] levels (depth + 1)%Z
                (Some (key c)) (Some (i =? last)%Z)
                (orDefault (divider c) (str ": "))) as [out| |];
      cbn [prepend]; try reflexivity.
    now rewrite IH, prepend_prepend.
Qed.

(** ** Raising the depth limit *)

Lemma subsequence_refl : forall (A : Type) (l : list A), subsequence l l.
Proof. induction l; constructor; assumption. Qed.

Lemma subsequence_nil_l : forall (A : Type) (l : list A), subsequence [] l.
Proof. induction l; constructor; assumption. Qed.

Lemma subsequence_app :
  forall (A : Type) (a b c d : list A),
    subsequence a b -> subsequence c d -> subsequence (a ++ c) (b ++ d).
Proof.
  intros A a b c d Hab Hcd. induction Hab; simpl; try constructor; assumption.
Qed.

Lemma renderValue_withMaxDepth :
  forall chalk v d o, renderValue chalk v (withMaxDepth d o) = renderValue chalk v o.
Proof. intros chalk v d o. rewrite !renderValue_dispatch. destruct v; reflexivity. Qed.

Section DepthFacts.

Variable chalk : Chalk.
Variable o : ResolvedOptions.
Variables a b : number.
Hypothesis Hab : depthAtMost a b.

Abbreviation ta := {| opts := withMaxDepth a o |}.
Abbreviation tb := {| opts := withMaxDepth b o |}.

Lemma walkChildren_deeper :
  forall fuel cs,
    (forall x levels depth k l dv lb,
        walk chalk tb fuel x [] levels depth k l dv = Ok lb ->
        exists la,
          walk chalk ta fuel x [] levels depth k l dv = Ok la
          /\ subsequence la lb) ->
    forall i last levels depth lb,
      walkChildren (walk chalk tb fuel) cs i last [] levels depth = Ok lb ->
      exists la,
        walkChildren (walk chalk ta fuel) cs i last [] levels depth = Ok la
        /\ subsequence la lb.
Proof.
  intros fuel cs IH. induction cs as [|c cs IHcs];
    intros i last levels depth lb H.
  - injection H as <-. exists []. split; [reflexivity | constructor].
  - cbn [walkChildren] in *.
    destruct (walk chalk tb fuel (child_value c) [] levels (depth + 1)%Z
                (Some (key c)) (Some (i =? last)%Z)
                (orDefault (divider c) (str ": "))) as [outb| |] eqn:Hb;
      try discriminate.
    destruct (IH _ _ _ _ _ _ _ Hb) as (outa & -> & Hsub).
    assert (Hfb : Forall (fun c0 => framed (walk chalk tb fuel) (child_value c0)) cs)
      by (apply Forall_all_in; intros c0 _; apply walk_frame).
    assert (Hfa : Forall (fun c0 => framed (walk chalk ta fuel) (child_value c0)) cs)
      by (apply Forall_all_in; intros c0 _; apply walk_frame).
    rewrite (walkChildren_frame Hfb) in H. rewrite (walkChildren_frame Hfa).
    destruct (walkChildren (walk chalk tb fuel) cs (i + 1)%Z last [] levels depth)
      as [restb| |] eqn:Hrest; try discriminate.
    destruct (IHcs _ _ _ _ _ Hrest) as (resta & -> & Hsubrest).
    injection H as <-. eexists. split; [reflexivity |].
    now apply subsequence_app.
Qed.

Lemma walk_deeper :
  forall fuel v levels depth k l dv lb,
    walk chalk tb fuel v [] levels depth k l dv = Ok lb ->
    exists la,
      walk chalk ta fuel v [] levels depth k l dv = Ok la
      /\ subsequence la lb.
Proof.
  induction fuel as [|fuel IH]; intros v levels depth k l dv lb H;
    [discriminate |].
  cbn [walk] in *. unfold walkBody in *. cbn [opts] in *.
  rewrite renderValue_withMaxDepth in *.
  change (maxDepth (withMaxDepth a o)) with a.
  change (maxDepth (withMaxDepth b o)) with b in H.
  destruct (num_gt (Int depth) a) eqn:Ha.
  { exists []. split; [reflexivity | apply subsequence_nil_l]. }
  destruct (num_gt (Int depth) b) eqn:Hb.
  { apply Hab in Hb. congruence. }
  destruct (looksLikeTruncation v).
  { injection H as <-. eexists. split; [reflexivity | apply subsequence_refl]. }
  destruct (renderValue chalk v o) as [node| |]; try discriminate.
  cbv zeta in *.
  change (showRoot (withMaxDepth a o)) with (showRoot o).
  change (showRoot (withMaxDepth b o)) with (showRoot o) in H.
  change (buildPrefix chalk ta levels l) with (buildPrefix chalk tb levels l).
  set (lines1 := match k with
                 | Some k0 => [] ++ [buildPrefix chalk tb levels l ++ k0 ++ dv ++ header node]
                 | None =>
                     if showRoot o || (depth >? 0)%Z
                     then [] ++ [buildPrefix chalk tb levels l ++ header node]
                     else []
                 end) in *.
  destruct (children node) as [[|c cs]|].
  1, 3: injection H as <-; eexists; split; [reflexivity | apply subsequence_refl].
  assert (Hfb : Forall (fun c0 => framed (walk chalk tb fuel) (child_value c0)) (c :: cs))
    by (apply Forall_all_in; intros c0 _; apply walk_frame).
  assert (Hfa : Forall (fun c0 => framed (walk chalk ta fuel) (child_value c0)) (c :: cs))
    by (apply Forall_all_in; intros c0 _; apply walk_frame).
  rewrite (walkChildren_frame Hfb) in H. rewrite (walkChildren_frame Hfa).
  destruct (walkChildren (walk chalk tb fuel) (c :: cs) 0
              (Z.of_nat (List.length (c :: cs)) - 1) []
              (if (depth =? 0)%Z then levels
               else levels ++ [negb match l with Some true => true | _ => false end])
              depth) as [restb| |] eqn:Hrest; try discriminate.
  destruct (@walkChildren_deeper fuel (c :: cs) IH _ _ _ _ _ Hrest) as (resta & -> & Hsub).
  injection H as <-. eexists. split; [reflexivity |].
  apply subsequence_app; [apply subsequence_refl | exact Hsub].
Qed.

End DepthFacts.

(** X16. Raising [maxDepth] only adds lines: when the renderer with the
    larger depth limit returns, the renderer with the smaller one (all other
    options being the same) returns too, and its lines are lines of the
    first, unchanged and in the same order. *)
Theorem render_deeper_only_adds_lines :
  forall chalk o a b root lb,
    depthAtMost a b ->
    render chalk {| opts := withMaxDepth b o |} root = Ok lb ->
    exists la,
      render chalk {| opts := withMaxDepth a o |} root = Ok la
      /\ subsequence la lb.
Proof.
  intros chalk o a b root lb Hab H. unfold render in *.
  now apply (walk_deeper chalk o Hab) in H.
Qed.

Lemma render_deeper_only_adds_lines_witness :
  depthAtMost (Int 1) (Int 2)
  /\ exists la,
       render plainChalk {| opts := withMaxDepth (Int 1) (opts defaultTree) |}
         sample_nested = Ok la
       /\ subsequence la [str "├─ a: Set(1)";
                          str "│  └─ 0: true";
                          str "└─ b: Array(2)";
                          str "   ├─ 0: 1";
                          str "   └─ 1: Object{}"].
Proof.
  assert (Hab : depthAtMost (Int 1) (Int 2)).
  { intros d H. unfold num_gt, num_lt in *.
    apply Z.ltb_lt. apply Z.ltb_lt in H. lia. }
  split; [exact Hab |].
  exact (@render_deeper_only_adds_lines plainChalk (opts defaultTree)
           (Int 1) (Int 2) sample_nested _ Hab eq_refl).
Defined.

